(** * Error classification and context normalisation of the DeFi
      transaction-failure agent (src/agent.js)

    The development embeds [ERROR_PATTERNS], [detectErrorCategory] and
    [buildTransactionContext] together with the part of JavaScript they
    rely on: the values a transaction record can hold, truthiness, the
    [||] operator, string conversion, [Array.prototype.join],
    [String.prototype.toLowerCase] and [String.prototype.includes].

    Scope of the value model.  A record is what [JSON.parse] can deliver
    (plus [undefined]): null, booleans, numbers, strings, arrays and
    plain objects.  Numbers are kept abstract behind the class [Number],
    which only exposes what the code observes of them (truthiness and
    string conversion).  Texts are byte strings; the case mapping of
    Unicode is kept abstract behind the class [CaseMapping], which states
    the two facts about [toLowerCase] that the proofs rely on. *)

From Stdlib Require Import Ascii.
From Stdlib Require String.
From stdpp Require Import base option list strings gmap fin_maps pretty.

#[local] Arguments String.append : simpl nomatch.

(** ** Completions: a call either returns or throws *)

Inductive exn : Type :=
| TypeError (msg : string).

Inductive completion (A : Type) : Type :=
| Normal (a : A)
| Throw (e : exn).

Arguments Normal {A} a.
Arguments Throw {A} e.

#[export] Instance completion_ret : MRet completion := @Normal.

#[export] Instance completion_bind : MBind completion :=
  λ A B f c, match c with Normal a => f a | Throw e => Throw e end.

#[export] Instance completion_fmap : FMap completion :=
  λ A B f c, match c with Normal a => Normal (f a) | Throw e => Throw e end.

Definition returns {A} (c : completion A) : Prop := ∃ a, c = Normal a.

(** ** Strings

    A text is the byte string that encodes a JavaScript string, in an
    encoding that writes every ASCII character as one byte below 128 and
    every other character with bytes from 128 on (UTF-8). *)

(** [c.toLowerCase()] on one ASCII character: A-Z go to a-z. *)
Definition lower_char (c : ascii) : ascii :=
  let n := N_of_ascii c in
  if ((65 <=? n) && (n <=? 90))%N then ascii_of_N (n + 32) else c.

(** The case mapping of ASCII text. *)
Fixpoint ascii_toLowerCase (s : string) : string :=
  match s with
  | EmptyString => EmptyString
  | String c s' => String (lower_char c) (ascii_toLowerCase s')
  end.

(** Every character of [s] is an ASCII character. *)
Fixpoint is_ascii (s : string) : bool :=
  match s with
  | EmptyString => true
  | String c s' => (N_of_ascii c <? 128)%N && is_ascii s'
  end.

(** [String.prototype.toLowerCase] maps every letter of Unicode (the
    Kelvin sign goes to k), one character at a time; it looks at the
    neighbours of a character in one case only, a capital sigma at the end
    of a word, and never across a space.  The mapping is not written out.
    The development uses two facts about it: on ASCII text it is the ASCII
    mapping, and the texts on the two sides of a space are mapped
    independently. *)
Class CaseMapping : Type := {
  toLowerCase : string → string;
  toLowerCase_ascii (s : string) :
    is_ascii s = true → toLowerCase s = ascii_toLowerCase s;
  toLowerCase_space (a b : string) :
    toLowerCase (a +:+ " " +:+ b) = toLowerCase a +:+ " " +:+ toLowerCase b;
}.

(** The case mapping of ASCII text is one such mapping: it leaves every
    other character alone. *)
Definition ascii_case_mapping : CaseMapping.
Proof.
  refine {| toLowerCase := ascii_toLowerCase |}.
  - reflexivity.
  - assert (∀ a b, ascii_toLowerCase (a +:+ b)
                   = ascii_toLowerCase a +:+ ascii_toLowerCase b) as Happ.
    { induction a as [|c a IH]; intros b; [reflexivity|].
      cbn [String.append ascii_toLowerCase]. by rewrite IH. }
    intros a b. by rewrite !Happ.
Defined.

(** [s.includes(p)]: [p] starts at some position of [s]. *)
Fixpoint includes (s p : string) : bool :=
  String.prefix p s ||
  match s with
  | EmptyString => false
  | String _ s' => includes s' p
  end.

(** What [includes] decides: [p] occurs somewhere inside [s]. *)
Definition occurs_in (p s : string) : Prop := ∃ a b, s = a +:+ p +:+ b.

(** ** JavaScript values *)

Class Number : Type := {
  num : Type;
  (** [true] on the numbers that are falsy: +0, -0 and NaN *)
  num_falsy : num → bool;
  (** Number::toString *)
  num_to_string : num → string;
}.

Section values.
Context {numbers : Number} {texts : CaseMapping}.

#[warnings="-register-all"]
Inductive value : Type :=
| VUndefined
| VNull
| VBool (b : bool)
| VNum (n : num)
| VStr (s : string)
| VArr (elems : list value)
| VObj (props : gmap string value).

(** ToBoolean *)
Definition truthy (v : value) : bool :=
  match v with
  | VUndefined | VNull => false
  | VBool b => b
  | VNum n => negb (num_falsy n)
  | VStr s => negb (String.eqb s "")
  | VArr _ | VObj _ => true
  end.

(** [a || b] (both operands here are free of effects) *)
Definition or_else (a b : value) : value := if truthy a then a else b.

(** [o.k]: the own property, [undefined] when there is none.  None of the
    property names the agent reads exists on [Object.prototype]. *)
Definition get (o : gmap string value) (k : string) : value :=
  default VUndefined (o !! k).

(** [Array.prototype.join]: [undefined] and [null] elements give the
    empty string, every other element is converted with [conv]. *)
Definition join_element (conv : value → completion string) (x : value)
    : completion string :=
  match x with
  | VUndefined | VNull => Normal ""
  | _ => conv x
  end.

Definition join_with (conv : value → completion string) (sep : string)
    (elems : list value) : completion string :=
  strs ← mapM (join_element conv) elems;
  Normal (String.concat sep strs).

(** ToString.  An array is joined with commas.  A plain object answers
    through [Object.prototype.toString] unless an own [toString] property
    shadows it; such a property holds data, never a function, so
    OrdinaryToPrimitive falls through [valueOf] (which returns the object
    itself) and throws. *)
Fixpoint to_string (v : value) : completion string :=
  match v with
  | VUndefined => Normal "undefined"
  | VNull => Normal "null"
  | VBool b => Normal (if b then "true" else "false")
  | VNum n => Normal (num_to_string n)
  | VStr s => Normal s
  | VArr elems => join_with to_string "," elems
  | VObj props =>
      match props !! "toString" with
      | Some _ => Throw (TypeError "Cannot convert object to primitive value")
      | None => Normal "[object Object]"
      end
  end.

(** ** The error pattern library (agent.js, lines 11-52) *)

Record pattern_entry : Type := {
  patterns : list string;
  category : string;
}.

(** [Object.entries(ERROR_PATTERNS)]: the entries in insertion order. *)
Definition ERROR_PATTERNS : list (string * pattern_entry) :=
  [ ("OUT_OF_GAS",
     {| patterns := ["out of gas"; "gas required exceeds allowance";
                     "intrinsic gas too low"];
        category := "Gas Error" |});
    ("REVERT_NO_REASON",
     {| patterns := ["execution reverted"; "transaction reverted"];
        category := "Execution Revert" |});
    ("SLIPPAGE",
     {| patterns := ["insufficient output amount"; "excessive input amount";
                     "UniswapV2: K"; "slippage"];
        category := "Slippage Error" |});
    ("ALLOWANCE",
     {| patterns := ["allowance"; "transfer amount exceeds allowance";
                     "erc20: insufficient allowance"];
        category := "Allowance Error" |});
    ("BALANCE",
     {| patterns := ["insufficient balance"; "transfer amount exceeds balance";
                     "erc20: transfer amount exceeds balance"];
        category := "Balance Error" |});
    ("DEADLINE",
     {| patterns := ["transaction too old"; "expired"; "deadline"];
        category := "Deadline Error" |});
    ("REENTRANCY",
     {| patterns := ["reentrant call"; "reentrancy guard"];
        category := "Reentrancy Guard" |});
    ("OWNERSHIP",
     {| patterns := ["ownable: caller is not the owner"; "not authorized";
                     "access denied"; "onlyowner"];
        category := "Access Control Error" |});
    ("PAUSED",
     {| patterns := ["paused"; "contract is paused"; "pausable: paused"];
        category := "Contract Paused" |});
    ("NONCE",
     {| patterns := ["nonce too low"; "nonce too high";
                     "replacement transaction underpriced"];
        category := "Nonce Error" |}) ].

(** ** detectErrorCategory (agent.js, lines 55-70) *)

(** The object [{ key, ...value }]. *)
Definition category_object (key : string) (entry : pattern_entry)
    : gmap string value :=
  {[ "key" := VStr key;
     "patterns" := VArr (VStr <$> patterns entry);
     "category" := VStr (category entry) ]}.

(** The object returned when the loop finds nothing. *)
Definition UNKNOWN : gmap string value :=
  {[ "key" := VStr "UNKNOWN";
     "category" := VStr "Unknown Error";
     "patterns" := VArr [] ]}.

(** [searchStr] *)
Definition search_string (txData : gmap string value) : completion string :=
  joined ← join_with to_string " "
              [ or_else (get txData "error") (VStr "");
                or_else (get txData "revertReason") (VStr "");
                or_else (get txData "errorMessage") (VStr "") ];
  Normal (toLowerCase joined).

(** [value.patterns.some((p) => searchStr.includes(p.toLowerCase()))] *)
Definition entry_matches (searchStr : string) (entry : pattern_entry) : bool :=
  existsb (λ p, includes searchStr (toLowerCase p)) (patterns entry).

(** The [for ... of] loop with its early [return]. *)
Fixpoint first_match (searchStr : string) (entries : list (string * pattern_entry))
    : gmap string value :=
  match entries with
  | [] => UNKNOWN
  | (key, entry) :: rest =>
      if entry_matches searchStr entry then category_object key entry
      else first_match searchStr rest
  end.

Definition detectErrorCategory (txData : gmap string value)
    : completion (gmap string value) :=
  searchStr ← search_string txData;
  Normal (first_match searchStr ERROR_PATTERNS).

(** ** buildTransactionContext (agent.js, lines 72-96) *)

(** The properties of the returned object literal, in source order.
    [now] is the text [new Date().toISOString()] would give. *)
Definition context_properties (now : string) (txData : gmap string value)
    (errorCategory : gmap string value) : list (string * value) :=
  [ ("hash", or_else (get txData "hash") (VStr "N/A"));
    ("status", or_else (get txData "status") (VStr "failed"));
    ("errorCategory", VObj errorCategory);
    ("gasUsed", or_else (get txData "gasUsed") (VStr "N/A"));
    ("gasLimit", or_else (get txData "gasLimit") (VStr "N/A"));
    ("gasPrice", or_else (get txData "gasPrice") (VStr "N/A"));
    ("from", or_else (get txData "from") (VStr "N/A"));
    ("to", or_else (get txData "to") (VStr "N/A"));
    ("value", or_else (get txData "value") (VStr "0"));
    ("nonce", or_else (get txData "nonce") (VStr "N/A"));
    ("error", or_else (get txData "error") (VStr "No error message"));
    ("revertReason",
       or_else (get txData "revertReason") (VStr "No revert reason"));
    ("contractAddress",
       or_else (or_else (get txData "contractAddress") (get txData "to"))
               (VStr "N/A"));
    ("contractName",
       or_else (get txData "contractName") (VStr "Unknown Contract"));
    ("functionName",
       or_else (get txData "functionName") (VStr "Unknown Function"));
    ("inputData", or_else (get txData "inputData") (VStr "N/A"));
    ("network", or_else (get txData "network") (VStr "Ethereum Mainnet"));
    ("timestamp", or_else (get txData "timestamp") (VStr now));
    ("additionalContext",
       or_else (get txData "additionalContext") (VObj ∅)) ].

Definition buildTransactionContext (now : string) (txData : gmap string value)
    : completion (gmap string value) :=
  errorCategory ← detectErrorCategory txData;
  Normal (list_to_map (context_properties now txData errorCategory)).

(** The names of the canonical fields. *)
Definition canonical_fields : list string :=
  [ "hash"; "status"; "errorCategory"; "gasUsed"; "gasLimit"; "gasPrice";
    "from"; "to"; "value"; "nonce"; "error"; "revertReason";
    "contractAddress"; "contractName"; "functionName"; "inputData";
    "network"; "timestamp"; "additionalContext" ].

(** ** Vocabulary of the statements *)

(** The text one operand [txData.k || ""] contributes to [searchStr]. *)
Definition field_text (txData : gmap string value) (k : string)
    : completion string :=
  to_string (or_else (get txData k) (VStr "")).

(** The properties [detectErrorCategory] reads. *)
Definition text_fields : list string := ["error"; "revertReason"; "errorMessage"].

(** The values ToString accepts: no object with an own [toString]
    property, at any depth of array nesting. *)
Fixpoint convertible (v : value) : bool :=
  match v with
  | VArr elems => forallb convertible elems
  | VObj props => bool_decide (props !! "toString" = None)
  | _ => true
  end.

(** Some substring of some catalog entry occurs in [s]. *)
Definition some_catalog_substring (s : string) : Prop :=
  ∃ key entry p,
    (key, entry) ∈ ERROR_PATTERNS ∧ p ∈ patterns entry ∧
    occurs_in (toLowerCase p) s.

(** No substring of any catalog entry occurs in [s]. *)
Definition no_catalog_substring (s : string) : Prop :=
  ∀ key entry p,
    (key, entry) ∈ ERROR_PATTERNS → p ∈ patterns entry →
    ¬ occurs_in (toLowerCase p) s.

(** The specification's wording of the search string: the three fields,
    each defaulted to the empty string, concatenated in order and
    lower-cased. *)
Definition spec_field (txData : gmap string value) (k : string) : string :=
  match get txData k with
  | VStr s => s
  | _ => ""
  end.

Definition spec_search_string (txData : gmap string value) : string :=
  toLowerCase (spec_field txData "error" +:+ spec_field txData "revertReason"
               +:+ spec_field txData "errorMessage").

(** First lookup in a list of properties. *)
Fixpoint assoc (k : string) (props : list (string * value)) : option value :=
  match props with
  | [] => None
  | (k', v) :: rest => if String.eqb k' k then Some v else assoc k rest
  end.

(** *** Checks on the way a pattern can sit across a boundary *)

(** The non-empty suffixes of [s], longest first. *)
Fixpoint tails (s : string) : list string :=
  match s with
  | EmptyString => []
  | String _ s' => s :: tails s'
  end.

(** [p] is found in [x +:+ t1] exactly when it is found in [x +:+ t2],
    whatever [x] is: decided on [t1], [t2] and the suffixes of [p]. *)
Definition tails_agree (t1 t2 p : string) : bool :=
  Bool.eqb (includes t1 p) (includes t2 p) &&
  forallb (λ q, Bool.eqb (String.prefix q t1) (String.prefix q t2)) (tails p).

(** No occurrence of [p] in [h1 +:+ h2 +:+ x] starts inside [h1],
    whatever [x] is. *)
Definition head_clear (h1 h2 p : string) : bool :=
  forallb (λ h, negb (String.prefix p (h +:+ h2)) &&
                negb (String.prefix (h +:+ h2) p)) (tails h1).

(** [f] holds of every lower-cased pattern of the catalog. *)
Definition catalog_forall (f : string → bool) : bool :=
  forallb (λ ke : string * pattern_entry,
             forallb (λ p, f (toLowerCase p)) (patterns ke.2))
          ERROR_PATTERNS.

(** ** Sample records *)

(** [{error: "out of", revertReason: "gas"}] *)
Definition split_phrase_record : gmap string value :=
  {[ "error" := VStr "out of"; "revertReason" := VStr "gas" ]}.

(** [{error: "out of"}] *)
Definition out_of_record : gmap string value :=
  {[ "error" := VStr "out of" ]}.

(** [{revertReason: "gas"}] *)
Definition gas_reason_record : gmap string value :=
  {[ "revertReason" := VStr "gas" ]}.

(** [{error: "Ran OUT Of", revertReason: "Gas!"}] *)
Definition split_capitals_record : gmap string value :=
  {[ "error" := VStr "Ran OUT Of"; "revertReason" := VStr "Gas!" ]}.

(** [{error: false, revertReason: "out of", errorMessage: "gas"}] *)
Definition split_falsy_record : gmap string value :=
  {[ "error" := VBool false; "revertReason" := VStr "out of";
     "errorMessage" := VStr "gas" ]}.

(** [{revertReason: "uniswapv2:", errorMessage: "k"}] *)
Definition split_constant_record : gmap string value :=
  {[ "revertReason" := VStr "uniswapv2:"; "errorMessage" := VStr "k" ]}.

(** [{error: "allow", revertReason: "ance"}] *)
Definition split_word_record : gmap string value :=
  {[ "error" := VStr "allow"; "revertReason" := VStr "ance" ]}.

(** [{error: ["out of gas"]}] *)
Definition array_record : gmap string value :=
  {[ "error" := VArr [VStr "out of gas"] ]}.

(** [{error: {toString: null}}] *)
Definition shadowed_record : gmap string value :=
  {[ "error" := VObj {[ "toString" := VNull ]} ]}.

(** [{errorMessage: "out of gas"}] *)
Definition message_only_record : gmap string value :=
  {[ "errorMessage" := VStr "out of gas" ]}.

(** [{error: "OUT OF GAS", gasLimit: "21000"}] *)
Definition gas_record : gmap string value :=
  {[ "error" := VStr "OUT OF GAS"; "gasLimit" := VStr "21000" ]}.

(** [{revertReason: "VL_COLLATERAL_CANNOT_COVER_NEW_BORROW"}] *)
Definition collateral_record : gmap string value :=
  {[ "revertReason" := VStr "VL_COLLATERAL_CANNOT_COVER_NEW_BORROW" ]}.

(** [{error: false, revertReason: "Pausable: paused"}] *)
Definition false_error_record : gmap string value :=
  {[ "error" := VBool false; "revertReason" := VStr "Pausable: paused" ]}.

(** A reading of the clock, as [new Date().toISOString()] prints it. *)
Definition sample_now : string := "2024-01-15T10:23:45.000Z".

(** [{to: "0xRouter", error: "ERC20: transfer amount exceeds allowance"}] *)
Definition router_record : gmap string value :=
  {[ "to" := VStr "0xRouter";
     "error" := VStr "ERC20: transfer amount exceeds allowance" ]}.

End values.

(** Integer-valued numbers (the safe integers), printed in decimal. *)
Definition integer_numbers : Number := {|
  num := Z;
  num_falsy z := Z.eqb z 0;
  num_to_string z := pretty z;
|}.

(** * The orchestration around the classifier (agent.js, lines 99-285)

    [diagnoseTxFailure] and [batchAnalyze] talk to the inference service.
    The service, the clock and [JSON.stringify] are parameters: a state
    [World] that every request may change, the answer of one request
    (the text of the first content block, or the message of the error the
    promise is rejected with), the text of the clock, and the JSON text of
    a value.  The JSON text of an object lists its properties in the order
    in which they were written, which a [gmap] does not keep: the text is
    therefore no function of the value alone, and is read from the world
    like the clock.  Console output is left out, except that the text of a
    log line is still computed where computing it can raise. *)

(** What a caller sees of a call: its result, or [err.message]. *)
Inductive outcome (A : Type) : Type :=
| Done (a : A)
| Failed (message : string).

Arguments Done {A} a.
Arguments Failed {A} message.

Definition message_of (e : exn) : string :=
  match e with TypeError msg => msg end.

(** The error ToString raises. *)
Definition conversion_error : exn :=
  TypeError "Cannot convert object to primitive value".

Definition caught {A} (c : completion A) : outcome A :=
  match c with
  | Normal a => Done a
  | Throw e => Failed (message_of e)
  end.

(** One entry of [conversationHistory]. *)
Record message : Type := {
  role : string;
  content : string;
}.

(** The argument of [client.messages.create]. *)
Record request : Type := {
  model : string;
  max_tokens : Z;
  system : string;
  messages : list message;
}.

Definition LF : string := String "010"%char "".

(** [systemPrompt] (agent.js, lines 102-116) *)
Definition systemPrompt : string :=
  String.concat LF
    [ "You are an expert DeFi transaction failure analyst. Your job is to:";
      "1. Analyze failed blockchain transaction data";
      "2. Provide clear, human-readable explanations of WHY the transaction failed";
      "3. Give actionable fix recommendations";
      "4. Explain concepts in plain language for both beginners and developers";
      "";
      "Always structure your response as:";
      "- **Root Cause**: One sentence summary";
      "- **Detailed Explanation**: 2-3 sentences explaining what happened technically";
      "- **User-Friendly Explanation**: Explain in plain English as if talking to a non-technical user";
      "- **Fix Recommendations**: Numbered list of concrete steps to resolve the issue";
      "- **Prevention Tips**: How to avoid this in the future";
      "- **Severity**: Low / Medium / High / Critical";
      "";
      "Be specific, practical, and empathetic. Users are frustrated when transactions fail." ].

(** The second user turn (agent.js, lines 164-169) *)
Definition codeFixRequest : string :=
  String.concat LF
    [ "Based on your diagnosis, can you provide:";
      "1. A specific code snippet or transaction parameter fix (if applicable)";
      "2. The exact values/settings the user should change";
      "3. A checklist before retrying the transaction";
      "";
      "Format code examples in markdown code blocks with the appropriate language." ].

(** The third user turn (agent.js, lines 185-188) *)
Definition riskRequest : string :=
  String.concat LF
    [ "Finally, provide a brief risk assessment:";
      "1. Was any ETH/tokens lost? (gas fees are usually lost in failed txs)";
      "2. Are there any security concerns with this transaction?";
      "3. What's the confidence level of your diagnosis (High/Medium/Low) and why?" ].

Definition user (text : string) : message :=
  {| role := "user"; content := text |}.

Definition assistant (text : string) : message :=
  {| role := "assistant"; content := text |}.

(** The request of one turn: [conversationHistory] as it stands when the
    call is made, which is what the call sends. *)
Definition request_of (conversationHistory : list message) : request :=
  {| model := "claude-opus-4-6"; max_tokens := 8096%Z; system := systemPrompt;
     messages := conversationHistory |}.

(** The requests of the three turns, given the first prompt and the
    answers so far. *)
Definition first_turn (prompt : string) : request :=
  request_of [user prompt].

Definition second_turn (prompt d : string) : request :=
  request_of [user prompt; assistant d; user codeFixRequest].

Definition third_turn (prompt d f : string) : request :=
  request_of [user prompt; assistant d; user codeFixRequest;
              assistant f; user riskRequest].

Section orchestration.
Context {numbers : Number} {texts : CaseMapping}.

(** [v.k] on any value, for the property names the agent reads: none of
    them exists on a string, a number, a boolean or an array. *)
Definition member (v : value) (k : string) : completion value :=
  match v with
  | VObj props => Normal (get props k)
  | VUndefined =>
      Throw (TypeError ("Cannot read properties of undefined (reading '"
                        +:+ k +:+ "')"))
  | VNull =>
      Throw (TypeError ("Cannot read properties of null (reading '"
                        +:+ k +:+ "')"))
  | _ => Normal VUndefined
  end.

(** The record a function sees when it is handed [v] as [txData]. *)
Definition as_record (v : value) : completion (gmap string value) :=
  match v with
  | VObj props => Normal props
  | VUndefined =>
      Throw (TypeError "Cannot read properties of undefined (reading 'error')")
  | VNull =>
      Throw (TypeError "Cannot read properties of null (reading 'error')")
  | _ => Normal ∅
  end.

(** The value [diagnoseTxFailure] returns. *)
Record diagnosis_result : Type := {
  transactionContext : gmap string value;
  diagnosis : string;
  codeFix : string;
  riskAssessment : string;
  errorCategory : value;
  conversationTurns : nat;
}.

(** An element of [results] in [batchAnalyze]:
    [{success: true, result}] or [{success: false, error, tx}]. *)
Inductive batch_entry : Type :=
| succeeded (result : diagnosis_result)
| failed_with (error : string) (tx : value).

Record batch_summary : Type := {
  total : nat;
  analyzed : nat;
  failed : nat;
  categorySummary : gmap string nat;
}.

(** [r.success] *)
Definition success (r : batch_entry) : bool :=
  match r with succeeded _ => true | failed_with _ _ => false end.

(** [results.filter((r) => r.success)], read through [r.result] *)
Definition successes (results : list batch_entry) : list diagnosis_result :=
  omap (λ r, match r with succeeded result => Some result | _ => None end)
       results.

(** [results.filter((r) => !r.success)] *)
Definition failures (results : list batch_entry) : list batch_entry :=
  filter (λ r, success r = false) results.

(** [summary.categorySummary[cat] = (summary.categorySummary[cat] || 0) + 1],
    for a label that names no property of [Object.prototype]; the labels
    of the classifier are of this kind. *)
Definition count_category (summary : gmap string nat)
    (result : diagnosis_result) : completion (gmap string nat) :=
  cat ← (member (errorCategory result) "category" ≫= to_string);
  Normal (<[cat := default 0 (summary !! cat) + 1]> summary).

Fixpoint count_categories (summary : gmap string nat)
    (results : list diagnosis_result) : completion (gmap string nat) :=
  match results with
  | [] => Normal summary
  | result :: rest =>
      summary' ← count_category summary result;
      count_categories summary' rest
  end.

(** The text of the log line
    [Processing: ${tx.hash || "Unknown"}], computed before the [try]. *)
Definition processing_line (tx : value) : completion string :=
  hash ← member tx "hash";
  to_string (or_else hash (VStr "Unknown")).

(** The fields of the context that [userPrompt] prints. *)
Definition shown_fields : list string :=
  [ "hash"; "network"; "timestamp"; "from"; "to"; "contractName";
    "contractAddress"; "functionName"; "value"; "gasUsed"; "gasLimit";
    "gasPrice"; "error"; "revertReason"; "inputData" ].

(** The properties of [txData] whose string conversion a diagnosis
    needs: those the classifier reads and those the prompt prints. *)
Definition converted_fields : list string := "errorMessage" :: shown_fields.

(** The labels a classification can carry. *)
Definition category_labels : list string :=
  "Unknown Error" :: ((λ ke : string * pattern_entry, category ke.2)
                        <$> ERROR_PATTERNS).

(** [r.result.errorCategory.category], when it is a string. *)
Definition category_of (result : diagnosis_result) : option string :=
  match errorCategory result with
  | VObj c => match get c "category" with VStr cat => Some cat | _ => None end
  | _ => None
  end.

(** The log line of a batch element can be computed. *)
Definition loggable (tx : value) : bool :=
  match tx with
  | VUndefined | VNull => false
  | VObj props =>
      negb (truthy (get props "hash")) || convertible (get props "hash")
  | _ => true
  end.

Context {World : Type}.
Variable create : request → World → outcome string * World.
Variable clock : World → string.
Variable stringify : value → World → string.

(** Code that may fail and may change the world. *)
Definition io (A : Type) : Type := World → outcome A * World.

#[export] Instance io_ret : MRet io := λ A a w, (Done a, w).

#[export] Instance io_bind : MBind io :=
  λ A B f m w,
    match m w with
    | (Done a, w') => f a w'
    | (Failed msg, w') => (Failed msg, w')
    end.

(** Code of the agent itself: it leaves the world alone. *)
Definition lift {A} (c : completion A) : io A := λ w, (caught c, w).

(** [try { ... } catch (err) { ... err.message ... }] *)
Definition try_catch {A} (m : io A) : io (outcome A) :=
  λ w, let '(r, w') := m w in (Done r, w').

(** [userPrompt] (agent.js, lines 118-143): the substitutions are
    converted to strings from left to right, then the text is put
    together.  [json] is [JSON.stringify(_, null, 2)] at the time of the
    call. *)
Definition userPrompt (json : value → string) (ctx : gmap string value)
    : completion string :=
  hash ← to_string (get ctx "hash");
  network ← to_string (get ctx "network");
  timestamp ← to_string (get ctx "timestamp");
  from ← to_string (get ctx "from");
  to ← to_string (get ctx "to");
  contractName ← to_string (get ctx "contractName");
  contractAddress ← to_string (get ctx "contractAddress");
  functionName ← to_string (get ctx "functionName");
  value_ ← to_string (get ctx "value");
  gasUsed ← to_string (get ctx "gasUsed");
  gasLimit ← to_string (get ctx "gasLimit");
  gasPrice ← to_string (get ctx "gasPrice");
  category_ ← (member (get ctx "errorCategory") "category" ≫= to_string);
  error ← to_string (get ctx "error");
  revertReason ← to_string (get ctx "revertReason");
  inputData ← to_string (get ctx "inputData");
  let additionalContext := json (get ctx "additionalContext") in
  Normal (String.concat LF
       [ "Analyze this failed DeFi transaction and explain why it failed:";
         "";
         "## Transaction Details";
         "- **Hash**: " +:+ hash;
         "- **Network**: " +:+ network;
         "- **Timestamp**: " +:+ timestamp;
         "- **From**: " +:+ from;
         "- **To**: " +:+ to;
         "- **Contract**: " +:+ contractName +:+ " (" +:+ contractAddress +:+ ")";
         "- **Function Called**: " +:+ functionName;
         "- **Value Sent**: " +:+ value_ +:+ " ETH";
         "";
         "## Gas Information";
         "- **Gas Used**: " +:+ gasUsed;
         "- **Gas Limit**: " +:+ gasLimit;
         "- **Gas Price**: " +:+ gasPrice;
         "";
         "## Error Information";
         "- **Error Category Detected**: " +:+ category_;
         "- **Raw Error**: " +:+ error;
         "- **Revert Reason**: " +:+ revertReason;
         "- **Input Data**: " +:+ inputData;
         "";
         "## Additional Context";
         additionalContext;
         "";
         "Please provide a comprehensive diagnosis of why this transaction failed and how to fix it." ]).

(** [diagnoseTxFailure] (agent.js, lines 99-208) *)
Definition diagnoseTxFailure (txData : gmap string value)
    : io diagnosis_result :=
  λ w,
  (ctx ← lift (buildTransactionContext (clock w) txData);
   userPrompt ← lift (userPrompt (λ v, stringify v w) ctx);
   let conversationHistory := [user userPrompt] in
   diagnosis ← create (request_of conversationHistory);
   let conversationHistory :=
     conversationHistory ++ [assistant diagnosis; user codeFixRequest] in
   codeFix ← create (request_of conversationHistory);
   let conversationHistory :=
     conversationHistory ++ [assistant codeFix; user riskRequest] in
   riskAssessment ← create (request_of conversationHistory);
   mret {| transactionContext := ctx;
           diagnosis := diagnosis;
           codeFix := codeFix;
           riskAssessment := riskAssessment;
           errorCategory := get ctx "errorCategory";
           conversationTurns := 3 |}) w.

(** [diagnoseTxFailure(tx)] for an element of a batch, which can be any
    value. *)
Definition diagnose (tx : value) : io diagnosis_result :=
  txData ← lift (as_record tx);
  diagnoseTxFailure txData.

(** What one element of a batch leaves in [results]: the outcome of its
    diagnosis from some state of the service. *)
Definition entry_of (tx : value) (entry : batch_entry) : Prop :=
  ∃ w0 w1,
    match entry with
    | succeeded result => diagnose tx w0 = (Done result, w1)
    | failed_with msg tx' => tx' = tx ∧ diagnose tx w0 = (Failed msg, w1)
    end.

(** The loop of [batchAnalyze]. *)
Fixpoint process (transactions : list value) (results : list batch_entry)
    : io (list batch_entry) :=
  match transactions with
  | [] => mret results
  | tx :: rest =>
      _ ← lift (processing_line tx);
      r ← try_catch (diagnose tx);
      process rest
        (results ++ [match r with
                     | Done result => succeeded result
                     | Failed msg => failed_with msg tx
                     end])
  end.

(** [batchAnalyze] (agent.js, lines 245-285) *)
Definition batchAnalyze (transactions : list value)
    : io (list batch_entry * batch_summary) :=
  results ← process transactions [];
  categorySummary ← lift (count_categories ∅ (successes results));
  mret (results,
        {| total := length transactions;
           analyzed := length (successes results);
           failed := length (failures results);
           categorySummary := categorySummary |}).

(** The three requests of [diagnoseTxFailure] written out one after the
    other, for a context and a first prompt that have been computed. *)
Definition conversation (ctx : gmap string value) (prompt : string)
    : io diagnosis_result :=
  λ w,
    match create (first_turn prompt) w with
    | (Failed msg, w1) => (Failed msg, w1)
    | (Done d, w1) =>
        match create (second_turn prompt d) w1 with
        | (Failed msg, w2) => (Failed msg, w2)
        | (Done f, w2) =>
            match create (third_turn prompt d f) w2 with
            | (Failed msg, w3) => (Failed msg, w3)
            | (Done r, w3) =>
                (Done {| transactionContext := ctx;
                         diagnosis := d;
                         codeFix := f;
                         riskAssessment := r;
                         errorCategory := get ctx "errorCategory";
                         conversationTurns := 3 |}, w3)
            end
        end
    end.

(** The service with a transcript: every request is written down with
    its answer. *)
Definition recorded : request → World * list (request * outcome string)
    → outcome string * (World * list (request * outcome string)) :=
  λ req '(w, log),
    let '(answer, w') := create req w in
    (answer, (w', log ++ [(req, answer)])).

End orchestration.

(** * The HTTP handlers (server.js, lines 36-118)

    A handler is run on [req.body], the value the JSON body parser left
    there, and gives the response it sends.  A handler that fails has let
    an exception escape. *)

Section handlers.
Context {numbers : Number} {texts : CaseMapping}.

(** The value sent for one result of a batch. *)
Inductive batch_reply : Type :=
| reply_success (hash errorCategory : value)
                (diagnosis codeFix riskAssessment : string)
| reply_failure (error : string) (tx : value).

(** The responses of the three handlers: the status code with the
    properties of the body that depend on the request. *)
Inductive response : Type :=
| classified (category : gmap string value) (txData : value)
| diagnosed (hash errorCategory : value)
            (diagnosis codeFix riskAssessment analysisTimestamp : string)
| batched (summary : batch_summary) (results : list batch_reply)
| rejected (error : string)
| errored (error : string).

Definition status (r : response) : nat :=
  match r with
  | classified _ _ | diagnosed _ _ _ _ _ _ | batched _ _ => 200
  | rejected _ => 400
  | errored _ => 500
  end.

(** [typeof v === "object"] *)
Definition is_object (v : value) : bool :=
  match v with
  | VNull | VArr _ | VObj _ => true
  | _ => false
  end.

(** [const { k } = v] *)
Definition destructure (v : value) (k : string) : completion value :=
  match v with
  | VObj props => Normal (get props k)
  | VUndefined =>
      Throw (TypeError ("Cannot destructure property '" +:+ k
                        +:+ "' of 'req.body' as it is undefined."))
  | VNull =>
      Throw (TypeError ("Cannot destructure property '" +:+ k
                        +:+ "' of 'req.body' as it is null."))
  | _ => Normal VUndefined
  end.

(** [POST /classify] (server.js, lines 36-44) *)
Definition post_classify (body : value) : response :=
  match as_record body ≫= detectErrorCategory with
  | Normal category => classified category body
  | Throw e => rejected (message_of e)
  end.

(** One element of [results.map(...)] in [POST /batch]. *)
Definition reply_of (r : batch_entry) : batch_reply :=
  match r with
  | succeeded result =>
      reply_success (get (transactionContext result) "hash")
                    (errorCategory result) (diagnosis result)
                    (codeFix result) (riskAssessment result)
  | failed_with error tx => reply_failure error tx
  end.

Section server.
Context {World : Type}.
Variable create : request → World → outcome string * World.
Variable clock : World → string.
Variable stringify : value → World → string.

(** [new Date().toISOString()] *)
Definition toISOString : io string := λ w, (Done (clock w), w).

(** [POST /diagnose] (server.js, lines 47-80) *)
Definition post_diagnose (body : value) : io response :=
  if negb (truthy body) || negb (is_object body) then
    mret (rejected "Request body must be a transaction data object")
  else
    r ← try_catch (hash ← lift (member body "hash");
                   _ ← lift (to_string (or_else hash (VStr "unknown")));
                   result ← diagnose create clock stringify body;
                   analysisTimestamp ← toISOString;
                   mret (diagnosed hash (errorCategory result)
                           (diagnosis result) (codeFix result)
                           (riskAssessment result) analysisTimestamp));
    match r with
    | Done sent => mret sent
    | Failed msg => mret (errored msg)
    end.

(** [POST /batch] (server.js, lines 83-118) *)
Definition post_batch (body : value) : io response :=
  transactions ← lift (destructure body "transactions");
  match transactions with
  | VArr transactions =>
      if Nat.eqb (length transactions) 0 then
        mret (rejected "Request body must have a 'transactions' array")
      else if Nat.ltb 10 (length transactions) then
        mret (rejected "Max 10 transactions per batch")
      else
        r ← try_catch (batchAnalyze create clock stringify transactions);
        match r with
        | Done (results, summary) => mret (batched summary (reply_of <$> results))
        | Failed msg => mret (errored msg)
        end
  | _ => mret (rejected "Request body must have a 'transactions' array")
  end.

End server.

End handlers.

(** ** Sample inputs of the orchestration *)

Section samples.
Context {numbers : Number} {texts : CaseMapping}.

(** [{error: "out of gas", gasLimit: "21000"}] *)
Definition plain_gas_record : gmap string value :=
  {[ "error" := VStr "out of gas"; "gasLimit" := VStr "21000" ]}.

(** The example of the 400 response of [POST /diagnose]
    (server.js, lines 53-59) *)
Definition example_record : gmap string value :=
  {[ "hash" := VStr "0x...";
     "error" := VStr "execution reverted";
     "revertReason" := VStr "ERC20: insufficient allowance";
     "gasUsed" := VStr "45000";
     "gasLimit" := VStr "300000" ]}.

(** [{error: false, revertReason: null, errorMessage: "", hash: "0xabc"}] *)
Definition falsy_text_record : gmap string value :=
  {[ "error" := VBool false; "revertReason" := VNull;
     "errorMessage" := VStr ""; "hash" := VStr "0xabc" ]}.

(** [{hash: {toString: null}}] *)
Definition shadowed_hash_record : gmap string value :=
  {[ "hash" := VObj {[ "toString" := VNull ]} ]}.

(** [{nonce: "42", status: "reverted"}] added to the example *)
Definition example_record_with_nonce : gmap string value :=
  <[ "nonce" := VStr "42" ]> (<[ "status" := VStr "reverted" ]> example_record).

(** A service that answers from a script and refuses when the script is
    used up. *)
Definition scripted : request → list (outcome string)
    → outcome string * list (outcome string) :=
  λ _ script,
    match script with
    | answer :: rest => (answer, rest)
    | [] => (Failed "Connection error.", [])
    end.

Definition three_answers : list (outcome string) :=
  [Done "diagnosis"; Done "fix"; Done "risk"].

Definition sample_clock : list (outcome string) → string := λ _, sample_now.

(** [JSON.stringify] on the one value the samples hand to it, [{}]. *)
Definition sample_stringify : value → list (outcome string) → string :=
  λ _ _, "{}".

End samples.

(** * Properties *)

(** ** Completions *)

Lemma returns_Normal {A} (a : A) : returns (Normal a).
Proof. by exists a. Qed.

Lemma Normal_inj {A} (a b : A) : Normal a = Normal b → a = b.
Proof. congruence. Qed.

Lemma fmap_Normal {A B} (f : A → B) (a : A) : f <$> Normal a = Normal (f a).
Proof. reflexivity. Qed.

Lemma not_returns_Throw {A} (e : exn) : ¬ returns (@Throw A e).
Proof. by intros [a Ha]. Qed.

(** ** Substring search *)

Lemma prefix_true_iff (p s : string) :
  String.prefix p s = true ↔ ∃ b, s = p +:+ b.
Proof.
  revert s. induction p as [|a p IH]; intros s; simpl.
  - destruct s; split; eauto.
  - destruct s as [|c s]; simpl.
    + split; [done | by intros [b Hb]].
    + destruct (Ascii.ascii_dec a c) as [->|Hne].
      * rewrite IH. split; intros [b Hb]; exists b; simpl in *; congruence.
      * split; [done | intros [b Hb]; simpl in Hb; congruence].
Qed.

Lemma includes_nil (p : string) : includes "" p = String.prefix p "".
Proof. change (includes "" p) with (String.prefix p "" || false). apply orb_false_r. Qed.

Lemma includes_cons (c : ascii) (s p : string) :
  includes (String c s) p = String.prefix p (String c s) || includes s p.
Proof. reflexivity. Qed.

Lemma includes_true_iff (s p : string) :
  includes s p = true ↔ occurs_in p s.
Proof.
  unfold occurs_in. induction s as [|c s IH].
  - rewrite includes_nil, prefix_true_iff. split.
    + intros [b Hb]. by exists "", b.
    + intros ([|x a] & b & Hab); [by exists b | done].
  - rewrite includes_cons, orb_true_iff, prefix_true_iff, IH. split.
    + intros [[b Hb] | (a & b & Hab)].
      * by exists "", b.
      * exists (String c a), b. simpl. by rewrite Hab.
    + intros ([|x a] & b & Hab); simpl in Hab.
      * left. by exists b.
      * right. exists a, b. congruence.
Qed.

Lemma includes_false_iff (s p : string) :
  includes s p = false ↔ ¬ occurs_in p s.
Proof. rewrite <- includes_true_iff. by destruct (includes s p). Qed.

Section classification.
Context {numbers : Number} {texts : CaseMapping}.

Lemma entry_matches_true_iff (searchStr : string) (entry : pattern_entry) :
  entry_matches searchStr entry = true ↔
  ∃ p, p ∈ patterns entry ∧ occurs_in (toLowerCase p) searchStr.
Proof.
  unfold entry_matches. rewrite existsb_exists. split.
  - intros (p & Hin & Hp). exists p.
    by rewrite list_elem_of_In, <- includes_true_iff.
  - intros (p & Hin & Hp). exists p.
    by rewrite <- list_elem_of_In, includes_true_iff.
Qed.

Lemma entry_matches_false_iff (searchStr : string) (entry : pattern_entry) :
  entry_matches searchStr entry = false ↔
  ∀ p, p ∈ patterns entry → ¬ occurs_in (toLowerCase p) searchStr.
Proof.
  rewrite <- not_true_iff_false, entry_matches_true_iff. split.
  - intros Hno p Hin Hp. apply Hno. eauto.
  - intros Hno (p & Hin & Hp). by apply (Hno p).
Qed.

Lemma Some_VObj_inj (a b : gmap string value) :
  Some (VObj a) = Some (VObj b) → a = b.
Proof. congruence. Qed.

Lemma category_object_key key entry :
  category_object key entry !! "key" = Some (VStr key).
Proof. apply lookup_insert_eq. Qed.

Lemma UNKNOWN_key : UNKNOWN !! "key" = Some (VStr "UNKNOWN").
Proof. apply lookup_insert_eq. Qed.

Lemma category_object_not_UNKNOWN key entry :
  key ≠ "UNKNOWN" → category_object key entry ≠ UNKNOWN.
Proof.
  intros Hne Heq. apply (f_equal (.!! "key")) in Heq.
  rewrite category_object_key, UNKNOWN_key in Heq. congruence.
Qed.

(** The loop returns at the first entry that matches. *)
Lemma first_match_found searchStr pre key entry post :
  Forall (λ ke, entry_matches searchStr ke.2 = false) pre →
  entry_matches searchStr entry = true →
  first_match searchStr (pre ++ (key, entry) :: post)
  = category_object key entry.
Proof.
  intros Hpre Hhit. induction Hpre as [|[k e] pre Hk _ IH]; simpl.
  - by rewrite Hhit.
  - simpl in Hk. by rewrite Hk.
Qed.

Lemma first_match_none searchStr entries :
  Forall (λ ke, entry_matches searchStr ke.2 = false) entries →
  first_match searchStr entries = UNKNOWN.
Proof.
  induction 1 as [|[k e] entries Hk _ IH]; simpl; [done|].
  simpl in Hk. by rewrite Hk.
Qed.

(** Some entry matches: the list splits at the first one that does. *)
Lemma first_matching_entry searchStr (entries : list (string * pattern_entry)) :
  ¬ Forall (λ ke, entry_matches searchStr ke.2 = false) entries →
  ∃ pre key entry post,
    entries = pre ++ (key, entry) :: post ∧
    Forall (λ ke, entry_matches searchStr ke.2 = false) pre ∧
    entry_matches searchStr entry = true.
Proof.
  induction entries as [|[k e] entries IH]; intros Hnot.
  - destruct Hnot. constructor.
  - destruct (entry_matches searchStr e) eqn:Hk.
    + by exists [], k, e, entries.
    + destruct IH as (pre & key & entry & post & -> & Hpre & Hhit).
      { intros Hall. apply Hnot. by constructor. }
      exists ((k, e) :: pre), key, entry, post. split_and!; [done| |done].
      by constructor.
Qed.

(** [join] over the three operands of the array literal: an operand
    [x || ""] is never [undefined] or [null]. *)
Lemma join_operand (v : value) :
  join_element to_string (or_else v (VStr ""))
  = to_string (or_else v (VStr "")).
Proof.
  unfold or_else. destruct (truthy v) eqn:Hv; [|done].
  by destruct v.
Qed.

Lemma search_string_unfold (txData : gmap string value) :
  search_string txData =
  e ← to_string (or_else (get txData "error") (VStr ""));
  r ← to_string (or_else (get txData "revertReason") (VStr ""));
  m ← to_string (or_else (get txData "errorMessage") (VStr ""));
  Normal (toLowerCase (e +:+ " " +:+ r +:+ " " +:+ m)).
Proof.
  unfold search_string, join_with. cbn [mapM].
  rewrite !join_operand.
  destruct (to_string (or_else (get txData "error") _)) as [e|]; [|done].
  destruct (to_string (or_else (get txData "revertReason") _)) as [r|]; [|done].
  by destruct (to_string (or_else (get txData "errorMessage") _)) as [m|].
Qed.

Lemma field_text_string (txData : gmap string value) k s :
  get txData k = VStr s → field_text txData k = Normal s.
Proof.
  unfold field_text, or_else. intros ->. simpl.
  by destruct (String.eqb_spec s "") as [->|].
Qed.

Lemma field_text_falsy (txData : gmap string value) k :
  truthy (get txData k) = false → field_text txData k = Normal "".
Proof. unfold field_text, or_else. by intros ->. Qed.

Lemma search_string_fields (txData : gmap string value) e r m :
  field_text txData "error" = Normal e →
  field_text txData "revertReason" = Normal r →
  field_text txData "errorMessage" = Normal m →
  search_string txData = Normal (toLowerCase (e +:+ " " +:+ r +:+ " " +:+ m)).
Proof.
  unfold field_text. intros He Hr Hm.
  by rewrite search_string_unfold, He, Hr, Hm.
Qed.

Lemma detectErrorCategory_search (txData : gmap string value) searchStr :
  search_string txData = Normal searchStr →
  detectErrorCategory txData = Normal (first_match searchStr ERROR_PATTERNS).
Proof. intros Hs. unfold detectErrorCategory. by rewrite Hs. Qed.

Lemma catalog_keys :
  ERROR_PATTERNS.*1 =
  [ "OUT_OF_GAS"; "REVERT_NO_REASON"; "SLIPPAGE"; "ALLOWANCE"; "BALANCE";
    "DEADLINE"; "REENTRANCY"; "OWNERSHIP"; "PAUSED"; "NONCE" ].
Proof. reflexivity. Qed.

Lemma no_catalog_substring_Forall (s : string) :
  no_catalog_substring s ↔
  Forall (λ ke, entry_matches s ke.2 = false) ERROR_PATTERNS.
Proof.
  unfold no_catalog_substring. rewrite Forall_forall. split.
  - intros Hno [k e] Hin. apply entry_matches_false_iff. eauto.
  - intros Hall k e p Hin. by apply entry_matches_false_iff, (Hall (k, e)).
Qed.

(** *** The catalog is written in ASCII

    On ASCII text every case mapping is the ASCII one, so a record whose
    texts are ASCII is classified as under the ASCII mapping, where the
    classification can be computed. *)

Lemma toLowerCase_empty : toLowerCase "" = "".
Proof. by rewrite toLowerCase_ascii. Qed.

Lemma toLowerCase_join (e r m : string) :
  toLowerCase (e +:+ " " +:+ r +:+ " " +:+ m)
  = toLowerCase e +:+ " " +:+ toLowerCase r +:+ " " +:+ toLowerCase m.
Proof. by rewrite !toLowerCase_space. Qed.

Lemma entry_matches_ascii searchStr key entry :
  (key, entry) ∈ ERROR_PATTERNS →
  entry_matches searchStr entry
  = entry_matches (texts := ascii_case_mapping) searchStr entry.
Proof.
  intros Hin.
  repeat (apply elem_of_cons in Hin as [[= -> ->]|Hin]);
    [ unfold entry_matches; cbn [existsb patterns];
      by rewrite !toLowerCase_ascii by reflexivity ..
    | by apply elem_of_nil in Hin ].
Qed.

Lemma first_match_ascii searchStr :
  first_match searchStr ERROR_PATTERNS
  = first_match (texts := ascii_case_mapping) searchStr ERROR_PATTERNS.
Proof.
  assert (∀ entries,
            (∀ ke, ke ∈ entries → ke ∈ ERROR_PATTERNS) →
            first_match searchStr entries
            = first_match (texts := ascii_case_mapping) searchStr entries)
    as Hall; [|by apply Hall].
  induction entries as [|[key entry] entries IH]; intros Hsub; [done|].
  cbn [first_match].
  rewrite (entry_matches_ascii searchStr key entry) by (apply Hsub; constructor).
  rewrite IH; [done|]. intros ke Hke. apply Hsub. by constructor.
Qed.

Lemma detectErrorCategory_ascii (txData : gmap string value) joined :
  join_with to_string " "
    [ or_else (get txData "error") (VStr "");
      or_else (get txData "revertReason") (VStr "");
      or_else (get txData "errorMessage") (VStr "") ] = Normal joined →
  is_ascii joined = true →
  detectErrorCategory txData
  = detectErrorCategory (texts := ascii_case_mapping) txData.
Proof.
  intros Hjoined Hascii. unfold detectErrorCategory, search_string.
  rewrite Hjoined. cbn [mbind completion_bind].
  by rewrite (toLowerCase_ascii _ Hascii), first_match_ascii.
Qed.

Lemma search_string_ascii (txData : gmap string value) joined :
  join_with to_string " "
    [ or_else (get txData "error") (VStr "");
      or_else (get txData "revertReason") (VStr "");
      or_else (get txData "errorMessage") (VStr "") ] = Normal joined →
  is_ascii joined = true →
  search_string txData = Normal (ascii_toLowerCase joined).
Proof.
  intros Hjoined Hascii. unfold search_string.
  rewrite Hjoined. cbn [mbind completion_bind].
  by rewrite (toLowerCase_ascii _ Hascii).
Qed.

Lemma detectErrorCategory_empty :
  detectErrorCategory (∅ : gmap string value) = Normal UNKNOWN.
Proof.
  by rewrite (detectErrorCategory_ascii (∅ : gmap string value) "  ")
    by reflexivity.
Qed.

Lemma no_catalog_substring_ascii (s : string) :
  Forall (λ ke, entry_matches (texts := ascii_case_mapping) s ke.2 = false)
         ERROR_PATTERNS →
  no_catalog_substring s.
Proof.
  rewrite no_catalog_substring_Forall, !Forall_forall.
  intros Hall [key entry] Hin. cbn [snd].
  rewrite (entry_matches_ascii s key entry Hin).
  by apply (Hall (key, entry)).
Qed.

Lemma some_catalog_substring_not_none (s : string) :
  some_catalog_substring s → ¬ no_catalog_substring s.
Proof. intros (k & e & p & Hin & Hp & Hocc) Hno. by apply (Hno k e p). Qed.

(** C1 (amended).  The search string is made of the three fields, each
    replaced by the empty string when falsy and converted to text
    otherwise, joined in order by single spaces and lower-cased.  When
    some catalog substring occurs in it, [detectErrorCategory] returns the
    key, category and patterns of the first entry, in the catalog order
    OUT_OF_GAS ... NONCE, one of whose substrings occurs in it.  The
    statement is about the text as [toLowerCase] leaves it, whatever the
    case mapping does: it holds for the letters outside ASCII as well. *)
Theorem detectErrorCategory_first_match (txData : gmap string value) e r m :
  field_text txData "error" = Normal e →
  field_text txData "revertReason" = Normal r →
  field_text txData "errorMessage" = Normal m →
  some_catalog_substring (toLowerCase (e +:+ " " +:+ r +:+ " " +:+ m)) →
  ERROR_PATTERNS.*1 =
    [ "OUT_OF_GAS"; "REVERT_NO_REASON"; "SLIPPAGE"; "ALLOWANCE"; "BALANCE";
      "DEADLINE"; "REENTRANCY"; "OWNERSHIP"; "PAUSED"; "NONCE" ] ∧
  ∃ pre key entry post,
    ERROR_PATTERNS = pre ++ (key, entry) :: post ∧
    (∃ p, p ∈ patterns entry ∧
          occurs_in (toLowerCase p)
                    (toLowerCase (e +:+ " " +:+ r +:+ " " +:+ m))) ∧
    (∀ key' entry' p, (key', entry') ∈ pre → p ∈ patterns entry' →
       ¬ occurs_in (toLowerCase p)
                   (toLowerCase (e +:+ " " +:+ r +:+ " " +:+ m))) ∧
    detectErrorCategory txData = Normal (category_object key entry).
Proof.
  intros He Hr Hm Hsome. split; [apply catalog_keys|].
  set (s := toLowerCase _) in *.
  apply some_catalog_substring_not_none in Hsome.
  rewrite no_catalog_substring_Forall in Hsome.
  destruct (first_matching_entry _ _ Hsome)
    as (pre & key & entry & post & Hsplit & Hpre & Hhit).
  exists pre, key, entry, post. split_and!.
  - done.
  - by apply entry_matches_true_iff.
  - intros k' e' p Hin. rewrite Forall_forall in Hpre.
    apply (entry_matches_false_iff s e'), (Hpre (k', e') Hin).
  - rewrite (detectErrorCategory_search _ s)
      by apply (search_string_fields _ _ _ _ He Hr Hm).
    rewrite Hsplit. f_equal. by apply first_match_found.
Qed.

(** C2.  When no substring of any catalog entry occurs in the search
    string (the texts of the three fields joined by single spaces and
    lower-cased), [detectErrorCategory] returns exactly the sentinel: key
    UNKNOWN, category Unknown Error, no patterns.  The statement is about
    the text as [toLowerCase] leaves it, whatever the case mapping does:
    a Kelvin sign that is lower-cased to k counts as k. *)
Theorem detectErrorCategory_unknown (txData : gmap string value) e r m :
  field_text txData "error" = Normal e →
  field_text txData "revertReason" = Normal r →
  field_text txData "errorMessage" = Normal m →
  no_catalog_substring (toLowerCase (e +:+ " " +:+ r +:+ " " +:+ m)) →
  detectErrorCategory txData = Normal UNKNOWN ∧
  UNKNOWN = {[ "key" := VStr "UNKNOWN"; "category" := VStr "Unknown Error";
               "patterns" := VArr [] ]}.
Proof.
  intros He Hr Hm Hno. split; [|done].
  rewrite (detectErrorCategory_search _ _ (search_string_fields _ _ _ _ He Hr Hm)).
  f_equal. by apply first_match_none, no_catalog_substring_Forall.
Qed.

(** C9.  The fields are joined with a single space, so a catalog
    substring can match across a field boundary.  With error [out of] and
    revert reason [gas] no field on its own contains a catalog substring,
    and a record with one of the two fields alone is classified UNKNOWN;
    yet the record with both is classified with key OUT_OF_GAS, category
    Gas Error and the three patterns of that entry, not as UNKNOWN.  The
    same happens with capital letters in the fields ([Ran OUT Of], [Gas!]),
    with the one pattern the catalog writes with capitals
    ([UniswapV2: K], found in [uniswapv2:] followed by [k]), and at the
    second boundary, behind an error field that is [false] and counts as
    the empty text. *)
Theorem detectErrorCategory_across_fields :
  get split_phrase_record "error" = VStr "out of" ∧
  get split_phrase_record "revertReason" = VStr "gas" ∧
  get split_phrase_record "errorMessage" = VUndefined ∧
  no_catalog_substring (toLowerCase "out of") ∧
  no_catalog_substring (toLowerCase "gas") ∧
  detectErrorCategory out_of_record
  = Normal {[ "key" := VStr "UNKNOWN"; "category" := VStr "Unknown Error";
              "patterns" := VArr [] ]} ∧
  detectErrorCategory gas_reason_record
  = Normal {[ "key" := VStr "UNKNOWN"; "category" := VStr "Unknown Error";
              "patterns" := VArr [] ]} ∧
  search_string split_phrase_record = Normal "out of gas " ∧
  detectErrorCategory split_phrase_record
  = Normal {[ "key" := VStr "OUT_OF_GAS"; "category" := VStr "Gas Error";
              "patterns" := VArr [ VStr "out of gas";
                                   VStr "gas required exceeds allowance";
                                   VStr "intrinsic gas too low" ] ]} ∧
  detectErrorCategory split_phrase_record ≠ Normal UNKNOWN ∧
  (∃ c, detectErrorCategory split_capitals_record = Normal c ∧
        c !! "key" = Some (VStr "OUT_OF_GAS") ∧
        c !! "category" = Some (VStr "Gas Error")) ∧
  (∃ c, detectErrorCategory split_constant_record = Normal c ∧
        c !! "key" = Some (VStr "SLIPPAGE") ∧
        c !! "category" = Some (VStr "Slippage Error")) ∧
  search_string split_falsy_record = Normal " out of gas" ∧
  (∃ c, detectErrorCategory split_falsy_record = Normal c ∧
        c !! "key" = Some (VStr "OUT_OF_GAS") ∧
        c !! "category" = Some (VStr "Gas Error")).
Proof.
  assert (detectErrorCategory split_phrase_record
          = Normal (category_object "OUT_OF_GAS"
                      {| patterns := ["out of gas";
                                      "gas required exceeds allowance";
                                      "intrinsic gas too low"];
                         category := "Gas Error" |})) as Hrun.
  { by rewrite (detectErrorCategory_ascii split_phrase_record "out of gas "
                 eq_refl eq_refl). }
  split_and!.
  - reflexivity.
  - reflexivity.
  - reflexivity.
  - rewrite toLowerCase_ascii by reflexivity.
    apply no_catalog_substring_ascii. repeat constructor.
  - rewrite toLowerCase_ascii by reflexivity.
    apply no_catalog_substring_ascii. repeat constructor.
  - by rewrite (detectErrorCategory_ascii out_of_record "out of  " eq_refl eq_refl).
  - by rewrite (detectErrorCategory_ascii gas_reason_record " gas " eq_refl eq_refl).
  - by rewrite (search_string_ascii split_phrase_record "out of gas " eq_refl eq_refl).
  - by rewrite Hrun.
  - rewrite Hrun. intros Heq%Normal_inj.
    by eapply category_object_not_UNKNOWN; [|exact Heq].
  - eexists. split; [|split].
    + by rewrite (detectErrorCategory_ascii split_capitals_record
                    "Ran OUT Of Gas! " eq_refl eq_refl).
    + reflexivity.
    + reflexivity.
  - eexists. split; [|split].
    + by rewrite (detectErrorCategory_ascii split_constant_record
                    " uniswapv2: k" eq_refl eq_refl).
    + reflexivity.
    + reflexivity.
  - by rewrite (search_string_ascii split_falsy_record " out of gas"
                  eq_refl eq_refl).
  - eexists. split; [|split].
    + by rewrite (detectErrorCategory_ascii split_falsy_record
                    " out of gas" eq_refl eq_refl).
    + reflexivity.
    + reflexivity.
Qed.

(** *** String conversion of the three operands *)

Lemma mapM_join_returns (elems : list value) :
  Forall (λ x, returns (to_string x) ↔ convertible x = true) elems →
  returns (mapM (join_element to_string) elems)
  ↔ forallb convertible elems = true.
Proof.
  induction 1 as [|x elems Hx _ IH]; simpl.
  - split; [done | intros _; apply returns_Normal].
  - rewrite andb_true_iff, <- IH, <- Hx. clear IH Hx.
    assert (returns (join_element to_string x) ↔ returns (to_string x)) as Hel.
    { destruct x; simpl; try done; split; intros _; apply returns_Normal. }
    rewrite <- Hel.
    destruct (join_element to_string x) as [y|e]; simpl.
    + destruct (mapM (join_element to_string) elems) as [ys|e]; simpl.
      * split; [intros _; split|intros _]; apply returns_Normal.
      * split; [by intros ?%not_returns_Throw|].
        by intros [_ ?%not_returns_Throw].
    + split; [by intros ?%not_returns_Throw|].
      by intros [?%not_returns_Throw _].
Qed.

Lemma to_string_returns (v : value) :
  returns (to_string v) ↔ convertible v = true.
Proof.
  revert v. fix IH 1. intros [ | |b|n|s|elems|props]; simpl;
    try (split; [done | intros _; apply returns_Normal]).
  - unfold join_with.
    assert (Forall (λ x, returns (to_string x) ↔ convertible x = true) elems)
      as Hall by (induction elems; constructor; auto).
    rewrite <- (mapM_join_returns _ Hall).
    destruct (mapM (join_element to_string) elems) as [ys|e]; simpl.
    + split; intros _; apply returns_Normal.
    + split; by intros ?%not_returns_Throw.
  - rewrite bool_decide_eq_true. destruct (props !! "toString"); simpl.
    + split; [by intros ?%not_returns_Throw | done].
    + split; [done | intros _; apply returns_Normal].
Qed.

Lemma field_text_truthy (txData : gmap string value) k :
  truthy (get txData k) = true → field_text txData k = to_string (get txData k).
Proof. unfold field_text, or_else. by intros ->. Qed.

Lemma field_text_returns (txData : gmap string value) k :
  returns (field_text txData k)
  ↔ (truthy (get txData k) = true → convertible (get txData k) = true).
Proof.
  destruct (truthy (get txData k)) eqn:Hk.
  - rewrite field_text_truthy, to_string_returns by done. naive_solver.
  - rewrite field_text_falsy by done. split; [done | intros _; apply returns_Normal].
Qed.

Lemma detectErrorCategory_returns (txData : gmap string value) :
  returns (detectErrorCategory txData)
  ↔ returns (field_text txData "error") ∧
    returns (field_text txData "revertReason") ∧
    returns (field_text txData "errorMessage").
Proof.
  unfold detectErrorCategory. rewrite search_string_unfold. unfold field_text.
  destruct (to_string (or_else (get txData "error") _)) as [e|]; simpl;
    [|split; [by intros ?%not_returns_Throw | by intros [?%not_returns_Throw _]]].
  destruct (to_string (or_else (get txData "revertReason") _)) as [r|]; simpl;
    [|split; [by intros ?%not_returns_Throw
             | by intros (_ & ?%not_returns_Throw & _)]].
  destruct (to_string (or_else (get txData "errorMessage") _)) as [m|]; simpl;
    [|split; [by intros ?%not_returns_Throw
             | by intros (_ & _ & ?%not_returns_Throw)]].
  split; [intros _; split_and! | intros _]; apply returns_Normal.
Qed.

Lemma or_else_delete (txData : gmap string value) k k' d :
  truthy (get txData k) = false →
  or_else (get (delete k txData) k') d = or_else (get txData k') d.
Proof.
  intros Hk. unfold get in *. destruct (decide (k = k')) as [<-|Hne].
  - rewrite lookup_delete_eq. unfold or_else. by rewrite Hk.
  - by rewrite lookup_delete_ne.
Qed.

Lemma or_else_l (a d : value) : truthy a = true → or_else a d = a.
Proof. unfold or_else. by intros ->. Qed.

Lemma mapM_join_cases (elems : list value) :
  Forall (λ x, (∃ s, to_string x = Normal s) ∧ convertible x = true
               ∨ to_string x = Throw conversion_error ∧ convertible x = false)
         elems →
  (∃ strs, mapM (join_element to_string) elems = Normal strs)
    ∧ forallb convertible elems = true
  ∨ mapM (join_element to_string) elems = Throw conversion_error
    ∧ forallb convertible elems = false.
Proof.
  induction 1 as [|x elems Hx _ IH]; simpl.
  - left. eauto.
  - assert ((∃ s, join_element to_string x = Normal s) ∧ convertible x = true
            ∨ join_element to_string x = Throw conversion_error
              ∧ convertible x = false) as [[[s ->] ->] | [-> ->]].
    { destruct x; simpl; eauto. }
    + simpl. destruct IH as [[[strs ->] ->] | [-> ->]]; simpl; eauto.
    + right. done.
Qed.

(** ToString either gives a text or raises the one TypeError. *)
Lemma to_string_cases (v : value) :
  (∃ s, to_string v = Normal s) ∧ convertible v = true
  ∨ to_string v = Throw conversion_error ∧ convertible v = false.
Proof.
  revert v. fix IH 1. intros [ | |b|n|s|elems|props]; simpl; eauto.
  - unfold join_with.
    assert (Forall (λ x, (∃ s, to_string x = Normal s) ∧ convertible x = true
               ∨ to_string x = Throw conversion_error ∧ convertible x = false)
              elems) as Hall by (induction elems; constructor; auto).
    destruct (mapM_join_cases _ Hall) as [[[strs ->] ->] | [-> ->]];
      simpl; eauto.
  - destruct (props !! "toString"); simpl; eauto.
Qed.

Lemma to_string_Throw (v : value) e :
  to_string v = Throw e → e = conversion_error ∧ convertible v = false.
Proof.
  destruct (to_string_cases v) as [[[s ->] _] | [-> Hv]]; [done|].
  by intros [= <-].
Qed.

Lemma field_text_Throw (txData : gmap string value) k e :
  field_text txData k = Throw e →
  e = conversion_error ∧
  truthy (get txData k) = true ∧ convertible (get txData k) = false.
Proof.
  destruct (truthy (get txData k)) eqn:Hk.
  - rewrite field_text_truthy by done. intros [-> Hc]%to_string_Throw. done.
  - by rewrite field_text_falsy.
Qed.

(** [detectErrorCategory] raises nothing but the conversion error. *)
Lemma detectErrorCategory_cases (txData : gmap string value) :
  (∃ c, detectErrorCategory txData = Normal c)
    ∧ (∀ k, k ∈ text_fields → truthy (get txData k) = true →
            convertible (get txData k) = true)
  ∨ detectErrorCategory txData = Throw conversion_error
    ∧ (∃ k, k ∈ text_fields ∧ truthy (get txData k) = true ∧
            convertible (get txData k) = false).
Proof.
  unfold detectErrorCategory. rewrite search_string_unfold.
  fold (field_text txData "error") (field_text txData "revertReason")
       (field_text txData "errorMessage").
  destruct (field_text txData "error") as [e|x] eqn:He; simpl.
  2: { apply field_text_Throw in He as (-> & ? & ?). right. split; [done|].
       exists "error". split_and!; [repeat constructor | done..]. }
  destruct (field_text txData "revertReason") as [r|x] eqn:Hr; simpl.
  2: { apply field_text_Throw in Hr as (-> & ? & ?). right. split; [done|].
       exists "revertReason". split_and!; [repeat constructor | done..]. }
  destruct (field_text txData "errorMessage") as [m|x] eqn:Hm; simpl.
  2: { apply field_text_Throw in Hm as (-> & ? & ?). right. split; [done|].
       exists "errorMessage". split_and!; [repeat constructor | done..]. }
  left. split; [eauto|]. intros k Hk Htruthy.
  assert (returns (field_text txData k)) as Hret.
  { repeat (apply elem_of_cons in Hk as [->|Hk]); [by eexists..|].
    by apply elem_of_nil in Hk. }
  by apply field_text_returns in Hret.
Qed.

(** The text that stands in for a truthy value classifies like the
    value. *)
Lemma field_text_insert (txData : gmap string value) k s k' :
  truthy (get txData k) = true →
  to_string (get txData k) = Normal s →
  to_string (or_else (get (<[k := VStr s]> txData) k') (VStr ""))
  = to_string (or_else (get txData k') (VStr "")).
Proof.
  intros Hk Hs. unfold get at 1. destruct (decide (k = k')) as [<-|Hne].
  - rewrite lookup_insert_eq. cbn [default]. rewrite (or_else_l _ _ Hk), Hs.
    unfold or_else, id. cbn [truthy].
    by destruct (String.eqb_spec s "") as [->|].
  - by rewrite lookup_insert_ne.
Qed.

Lemma search_string_insert (txData : gmap string value) k s :
  truthy (get txData k) = true →
  to_string (get txData k) = Normal s →
  search_string (<[k := VStr s]> txData) = search_string txData.
Proof.
  intros Hk Hs. rewrite !search_string_unfold.
  by rewrite !(field_text_insert txData k s _ Hk Hs).
Qed.

(** C5 (amended).  [detectErrorCategory] returns exactly when each of the
    three fields is falsy or can be converted to a string; when one of
    them holds a truthy value without a string conversion (an object with
    an own [toString] property, directly or inside arrays) it raises the
    TypeError of the conversion.  A falsy value of any type is treated as
    absent: it contributes the empty string, and the search string and
    the result are those of the record without the property.  A truthy
    value that is not a string is not dropped: it contributes its string
    conversion, so that the search string and the result are those of the
    record that holds this text in its place. *)
Theorem detectErrorCategory_field_coercion (txData : gmap string value) k :
  k ∈ text_fields →
  (returns (detectErrorCategory txData)
   ↔ ∀ k', k' ∈ text_fields → truthy (get txData k') = true →
           convertible (get txData k') = true) ∧
  ((∃ k', k' ∈ text_fields ∧ truthy (get txData k') = true ∧
          convertible (get txData k') = false) →
   detectErrorCategory txData
   = Throw (TypeError "Cannot convert object to primitive value")) ∧
  (truthy (get txData k) = false →
     field_text txData k = Normal "" ∧
     search_string (delete k txData) = search_string txData ∧
     detectErrorCategory (delete k txData) = detectErrorCategory txData) ∧
  (truthy (get txData k) = true →
     field_text txData k = to_string (get txData k) ∧
     ∀ s, to_string (get txData k) = Normal s →
          search_string txData = search_string (<[k := VStr s]> txData) ∧
          detectErrorCategory txData
          = detectErrorCategory (<[k := VStr s]> txData)).
Proof.
  intros Hk. split_and!.
  - rewrite detectErrorCategory_returns, !field_text_returns.
    unfold text_fields. split.
    + intros (He & Hr & Hm) k' Hk'.
      repeat (apply elem_of_cons in Hk' as [->|Hk']); [done..|].
      by apply elem_of_nil in Hk'.
    + intros Hall. split_and!; apply Hall; repeat constructor.
  - intros (k' & Hk' & Hv & Hconv).
    destruct (detectErrorCategory_cases txData)
      as [[_ Hall] | [Hthrow _]]; [|exact Hthrow].
    by rewrite (Hall k' Hk' Hv) in Hconv.
  - intros Hfalsy. split; [by apply field_text_falsy|].
    unfold detectErrorCategory, search_string.
    by rewrite !or_else_delete.
  - intros Htruthy. split; [by apply field_text_truthy|]. intros s Hs.
    unfold detectErrorCategory.
    by rewrite (search_string_insert txData k s Htruthy Hs).
Qed.

End classification.

(** ** The context record *)

Section normalisation.
Context {numbers : Number} {texts : CaseMapping}.

Lemma list_to_map_assoc (props : list (string * value)) (k : string) :
  (list_to_map props : gmap string value) !! k = assoc k props.
Proof.
  induction props as [|[k' v] props IH]; simpl.
  - apply lookup_empty.
  - destruct (String.eqb_spec k' k) as [->|Hne].
    + apply lookup_insert_eq.
    + by rewrite lookup_insert_ne.
Qed.

Lemma buildTransactionContext_Normal now (txData errorCategory : gmap string value) :
  detectErrorCategory txData = Normal errorCategory →
  buildTransactionContext now txData
  = Normal (list_to_map (context_properties now txData errorCategory)).
Proof. intros Hc. unfold buildTransactionContext. by rewrite Hc. Qed.

Lemma buildTransactionContext_inv now (txData ctx : gmap string value) :
  buildTransactionContext now txData = Normal ctx →
  ∃ errorCategory,
    detectErrorCategory txData = Normal errorCategory ∧
    ctx = list_to_map (context_properties now txData errorCategory).
Proof.
  unfold buildTransactionContext.
  destruct (detectErrorCategory txData) as [c|e]; [|done].
  intros Hctx%Normal_inj. by exists c.
Qed.

Lemma truthy_defined (v : value) : truthy v = true → v ≠ VUndefined.
Proof. by intros Hv ->. Qed.

Lemma or_else_defined (a d : value) :
  d ≠ VUndefined → or_else a d ≠ VUndefined.
Proof.
  intros Hd. unfold or_else.
  destruct (truthy a) eqn:Ha; [by apply truthy_defined | done].
Qed.

Lemma context_properties_defined now (txData c : gmap string value) :
  Forall (λ kv, kv.2 ≠ VUndefined) (context_properties now txData c).
Proof. repeat constructor; simpl; (done || by apply or_else_defined). Qed.

Lemma context_properties_keys now (txData c : gmap string value) :
  (context_properties now txData c).*1 = canonical_fields.
Proof. reflexivity. Qed.

Lemma assoc_defined (props : list (string * value)) k :
  Forall (λ kv, kv.2 ≠ VUndefined) props →
  k ∈ props.*1 →
  ∃ v, assoc k props = Some v ∧ v ≠ VUndefined.
Proof.
  induction 1 as [|[k' v] props Hv _ IH]; simpl.
  - by intros ?%elem_of_nil.
  - intros Hin. destruct (String.eqb_spec k' k) as [->|Hne]; [by exists v|].
    apply elem_of_cons in Hin as [->|Hin]; [done | by apply IH].
Qed.

(** C3 (amended).  On every record on which [detectErrorCategory]
    returns, [buildTransactionContext] returns too, and every canonical
    field of its result is present and not [undefined].  On the empty
    record the result has hash N/A, error No error message, an
    errorCategory whose key is UNKNOWN, and an empty additionalContext. *)
Theorem buildTransactionContext_populated now (txData : gmap string value) :
  returns (detectErrorCategory txData) →
  (∃ ctx, buildTransactionContext now txData = Normal ctx ∧
     ∀ f, f ∈ canonical_fields → ∃ v, ctx !! f = Some v ∧ v ≠ VUndefined) ∧
  (∃ ctx,
     buildTransactionContext now ∅ = Normal ctx ∧
     ctx !! "hash" = Some (VStr "N/A") ∧
     ctx !! "error" = Some (VStr "No error message") ∧
     (∃ c, ctx !! "errorCategory" = Some (VObj c) ∧
           c !! "key" = Some (VStr "UNKNOWN")) ∧
     ctx !! "additionalContext" = Some (VObj ∅)).
Proof.
  intros [c Hc]. split.
  - eexists. split; [by apply buildTransactionContext_Normal|].
    intros f Hf. rewrite list_to_map_assoc.
    apply assoc_defined; [apply context_properties_defined|].
    by rewrite context_properties_keys.
  - assert (detectErrorCategory (∅ : gmap string value) = Normal UNKNOWN)
      as Hempty by apply detectErrorCategory_empty.
    eexists. split; [by apply buildTransactionContext_Normal|].
    rewrite !list_to_map_assoc. split_and!.
    + reflexivity.
    + reflexivity.
    + exists UNKNOWN. split; [reflexivity | apply UNKNOWN_key].
    + reflexivity.
Qed.

(** C4.  The errorCategory field of the context record is the result of
    [detectErrorCategory] on the same record (and the one call raises
    exactly when the other does). *)
Theorem buildTransactionContext_errorCategory now (txData : gmap string value) :
  (λ ctx : gmap string value, ctx !! "errorCategory")
    <$> buildTransactionContext now txData
  = (λ c, Some (VObj c)) <$> detectErrorCategory txData.
Proof.
  destruct (detectErrorCategory txData) as [c|e] eqn:Hc.
  - rewrite (buildTransactionContext_Normal _ _ _ Hc), !fmap_Normal.
    by rewrite list_to_map_assoc.
  - unfold buildTransactionContext. by rewrite Hc.
Qed.

(** C7.  [detectErrorCategory] reads the error, revertReason and
    errorMessage properties only: two records that agree on these three
    get the same result, whatever else they hold. *)
Theorem detectErrorCategory_reads_text_fields (tx1 tx2 : gmap string value) :
  get tx1 "error" = get tx2 "error" →
  get tx1 "revertReason" = get tx2 "revertReason" →
  get tx1 "errorMessage" = get tx2 "errorMessage" →
  detectErrorCategory tx1 = detectErrorCategory tx2.
Proof.
  intros He Hr Hm. unfold detectErrorCategory, search_string.
  by rewrite He, Hr, Hm.
Qed.

(** C8.  contractAddress is the record's contractAddress when that is
    truthy, else its [to] when that is truthy, else N/A.  For the record
    with [to] 0xRouter and error ERC20: transfer amount exceeds allowance
    it is 0xRouter, and the classification has key ALLOWANCE and category
    Allowance Error. *)
Theorem buildTransactionContext_contractAddress now (txData : gmap string value) :
  returns (detectErrorCategory txData) →
  (∃ ctx,
     buildTransactionContext now txData = Normal ctx ∧
     ctx !! "contractAddress"
     = Some (if truthy (get txData "contractAddress")
             then get txData "contractAddress"
             else if truthy (get txData "to") then get txData "to"
             else VStr "N/A")) ∧
  (∃ ctx c,
     buildTransactionContext now router_record = Normal ctx ∧
     ctx !! "contractAddress" = Some (VStr "0xRouter") ∧
     detectErrorCategory router_record = Normal c ∧
     c !! "key" = Some (VStr "ALLOWANCE") ∧
     c !! "category" = Some (VStr "Allowance Error")).
Proof.
  intros [c Hc]. split.
  - eexists. split; [by apply buildTransactionContext_Normal|].
    rewrite list_to_map_assoc. simpl. unfold or_else.
    destruct (truthy (get txData "contractAddress")) eqn:Hca.
    + by rewrite Hca.
    + by destruct (truthy (get txData "to")) eqn:Hto; rewrite ?Hto.
  - assert (detectErrorCategory router_record
            = Normal (category_object "ALLOWANCE"
                {| patterns := ["allowance";
                                "transfer amount exceeds allowance";
                                "erc20: insufficient allowance"];
                   category := "Allowance Error" |})) as Hrun
      by (by rewrite (detectErrorCategory_ascii router_record
                        "ERC20: transfer amount exceeds allowance  ")
            by reflexivity).
    eexists _, _. split; [by apply buildTransactionContext_Normal|].
    rewrite list_to_map_assoc. split_and!.
    + reflexivity.
    + exact Hrun.
    + apply category_object_key.
    + reflexivity.
Qed.

(** C10.  When status, value or network is absent or falsy, the context
    record has status failed, value 0 and network Ethereum Mainnet
    respectively. *)
Theorem buildTransactionContext_defaults now (txData : gmap string value) :
  returns (detectErrorCategory txData) →
  ∃ ctx,
    buildTransactionContext now txData = Normal ctx ∧
    (truthy (get txData "status") = false →
       ctx !! "status" = Some (VStr "failed")) ∧
    (truthy (get txData "value") = false →
       ctx !! "value" = Some (VStr "0")) ∧
    (truthy (get txData "network") = false →
       ctx !! "network" = Some (VStr "Ethereum Mainnet")).
Proof.
  intros [c Hc]. eexists. split; [by apply buildTransactionContext_Normal|].
  rewrite !list_to_map_assoc. simpl. unfold or_else.
  split_and!; by intros ->.
Qed.

End normalisation.

Section boundaries.
Context {numbers : Number} {texts : CaseMapping}.

Lemma prefix_nil (s : string) : String.prefix "" s = true.
Proof. by destruct s. Qed.

Lemma prefix_app_agree (t1 t2 p : string) :
  Forall (λ q, String.prefix q t1 = String.prefix q t2) (tails p) →
  ∀ x, String.prefix p (x +:+ t1) = String.prefix p (x +:+ t2).
Proof.
  intros Hq x. revert p Hq. induction x as [|c x IH]; intros p Hq.
  - destruct p as [|a p]; [by rewrite !prefix_nil|].
    simpl in Hq. by apply Forall_cons in Hq as [Hp _].
  - destruct p as [|a p]; [done|]. simpl.
    destruct (Ascii.ascii_dec a c); [|done].
    apply IH. simpl in Hq. by apply Forall_cons in Hq as [_ Hq].
Qed.

Lemma forallb_Forall {A} (f : A → bool) (l : list A) :
  forallb f l = true ↔ Forall (λ x, f x = true) l.
Proof.
  induction l as [|x l IH]; simpl.
  - split; [constructor | done].
  - rewrite andb_true_iff, IH, Forall_cons. done.
Qed.

Lemma includes_app_tail (t1 t2 p : string) :
  tails_agree t1 t2 p = true →
  ∀ x, includes (x +:+ t1) p = includes (x +:+ t2) p.
Proof.
  unfold tails_agree. rewrite andb_true_iff, forallb_Forall.
  intros [Hbase%eqb_prop Hq] x.
  assert (Forall (λ q, String.prefix q t1 = String.prefix q t2) (tails p)) as Hq'.
  { eapply Forall_impl; [exact Hq|]. intros q. apply eqb_prop. }
  induction x as [|c x IH]; [done|].
  change (String c x +:+ t1) with (String c (x +:+ t1)).
  change (String c x +:+ t2) with (String c (x +:+ t2)).
  rewrite !includes_cons, IH. f_equal.
  apply (prefix_app_agree t1 t2 p Hq' (String c x)).
Qed.

Lemma prefix_app_false (p h x : string) :
  String.prefix p h = false → String.prefix h p = false →
  String.prefix p (h +:+ x) = false.
Proof.
  revert h. induction p as [|a p IH]; intros h Hph Hhp.
  - by rewrite prefix_nil in Hph.
  - destruct h as [|c h]; [by rewrite prefix_nil in Hhp|].
    simpl in *. destruct (Ascii.ascii_dec a c) as [->|Hne]; [|done].
    destruct (Ascii.ascii_dec c c); [|done]. by apply IH.
Qed.

Lemma includes_app_head (h1 h2 p : string) :
  head_clear h1 h2 p = true →
  ∀ x, includes (h1 +:+ h2 +:+ x) p = includes (h2 +:+ x) p.
Proof.
  unfold head_clear. rewrite forallb_Forall. intros Hall x.
  induction h1 as [|c h1 IH]; [done|].
  simpl in Hall. apply Forall_cons in Hall as [Hc Hall].
  apply andb_true_iff in Hc as [Hph%negb_true_iff Hhp%negb_true_iff].
  change (String c h1 +:+ h2 +:+ x) with (String c (h1 +:+ h2 +:+ x)).
  rewrite includes_cons, (IH Hall).
  change (String c (h1 +:+ h2 +:+ x)) with (String c h1 +:+ h2 +:+ x).
  assert (String c h1 +:+ h2 +:+ x = (String c h1 +:+ h2) +:+ x) as ->.
  { clear. simpl. f_equal. induction h1 as [|a h1 IH]; simpl; [done | by rewrite IH]. }
  by rewrite prefix_app_false.
Qed.

Lemma first_match_ext s1 s2 (entries : list (string * pattern_entry)) :
  Forall (λ ke, Forall (λ p, includes s1 (toLowerCase p)
                             = includes s2 (toLowerCase p)) (patterns ke.2))
         entries →
  first_match s1 entries = first_match s2 entries.
Proof.
  induction 1 as [|[k e] entries He _ IH]; simpl; [done|].
  assert (entry_matches s1 e = entry_matches s2 e) as ->; [|by rewrite IH].
  unfold entry_matches. simpl in He.
  induction He as [|p ps Hp _ IHps]; simpl; [done | by rewrite Hp, IHps].
Qed.

Lemma catalog_forall_first_match (f : string → bool) s1 s2 :
  catalog_forall f = true →
  (∀ p, f p = true → includes s1 p = includes s2 p) →
  first_match s1 ERROR_PATTERNS = first_match s2 ERROR_PATTERNS.
Proof.
  unfold catalog_forall. rewrite forallb_Forall. intros Hall Hf.
  apply first_match_ext. eapply Forall_impl; [exact Hall|].
  intros ke Hke. simpl in Hke. apply forallb_Forall in Hke.
  eapply Forall_impl; [exact Hke|]. intros p. apply Hf.
Qed.

End boundaries.

Section twice.
Context {numbers : Number} {texts : CaseMapping}.

(** Putting "No revert reason" in the place of an empty revert reason
    leaves the classification alone. *)
Lemma first_match_default_revertReason (x : string) :
  first_match (x +:+ " no revert reason ") ERROR_PATTERNS
  = first_match (x +:+ "  ") ERROR_PATTERNS.
Proof.
  rewrite (first_match_ascii (x +:+ " no revert reason ")),
          (first_match_ascii (x +:+ "  ")).
  apply (catalog_forall_first_match (texts := ascii_case_mapping)
           (tails_agree " no revert reason " "  "));
    [by vm_compute|].
  intros p Hp. by apply includes_app_tail.
Qed.

(** So does putting "No error message" in the place of an empty error. *)
Lemma first_match_default_error (x : string) :
  first_match ("no error message" +:+ " " +:+ x) ERROR_PATTERNS
  = first_match (" " +:+ x) ERROR_PATTERNS.
Proof.
  rewrite (first_match_ascii ("no error message" +:+ " " +:+ x)),
          (first_match_ascii (" " +:+ x)).
  apply (catalog_forall_first_match (texts := ascii_case_mapping)
           (head_clear "no error message" " "));
    [by vm_compute|].
  intros p Hp. by apply includes_app_head.
Qed.

Lemma get_context now (txData c : gmap string value) k :
  get (list_to_map (context_properties now txData c)) k
  = default VUndefined (assoc k (context_properties now txData c)).
Proof. unfold get. by rewrite list_to_map_assoc. Qed.

Lemma or_else_truthy (a d : value) :
  truthy d = true → truthy (or_else a d) = true.
Proof. intros Hd. unfold or_else. by destruct (truthy a) eqn:Ha. Qed.

Lemma or_else_idem (a d d' : value) :
  truthy d = true → or_else (or_else a d) d' = or_else a d.
Proof.
  intros Hd. unfold or_else at 1. by rewrite or_else_truthy.
Qed.

Lemma search_twice now (txData c : gmap string value) s :
  truthy (get txData "errorMessage") = false →
  search_string txData = Normal s →
  ∃ s', search_string (list_to_map (context_properties now txData c)) = Normal s' ∧
        first_match s' ERROR_PATTERNS = first_match s ERROR_PATTERNS.
Proof.
  intros Hm. rewrite !search_string_unfold, !get_context.
  cbn [assoc String.eqb Ascii.eqb Bool.eqb default context_properties id].
  rewrite !or_else_idem by done. unfold or_else. rewrite Hm.
  destruct (truthy (get txData "error")) eqn:He,
           (truthy (get txData "revertReason")) eqn:Hr;
    cbn [truthy to_string].
  - destruct (to_string (get txData "error")) as [e|]; [|done].
    destruct (to_string (get txData "revertReason")) as [r|]; [|done].
    intros <-%Normal_inj. by eexists.
  - destruct (to_string (get txData "error")) as [e|]; [|done].
    intros <-%Normal_inj. eexists. split; [reflexivity|].
    rewrite !toLowerCase_join, !toLowerCase_empty,
            (toLowerCase_ascii "No revert reason") by reflexivity.
    apply (first_match_default_revertReason (toLowerCase e)).
  - destruct (to_string (get txData "revertReason")) as [r|]; [|done].
    intros <-%Normal_inj. eexists. split; [reflexivity|].
    rewrite !toLowerCase_join, !toLowerCase_empty,
            (toLowerCase_ascii "No error message") by reflexivity.
    apply (first_match_default_error (toLowerCase r +:+ " " +:+ "")).
  - intros <-%Normal_inj. eexists. split; [reflexivity|].
    rewrite !toLowerCase_ascii by reflexivity.
    etransitivity; [apply first_match_ascii|].
    symmetry. etransitivity; [apply first_match_ascii|]. reflexivity.
Qed.

Lemma convertible_or_else (a : value) (d : string) :
  (truthy a = true → convertible a = true) →
  convertible (or_else a (VStr d)) = true.
Proof.
  intros Ha. unfold or_else. destruct (truthy a); [by apply Ha | done].
Qed.

(** The context record can always be classified. *)
Lemma detectErrorCategory_context_returns now (txData c : gmap string value) :
  returns (detectErrorCategory txData) →
  returns (detectErrorCategory (list_to_map (context_properties now txData c))).
Proof.
  rewrite !detectErrorCategory_returns, !field_text_returns, !get_context.
  cbn [assoc String.eqb Ascii.eqb Bool.eqb default context_properties id].
  intros (He & Hr & _). split_and!; [| |done]; intros _; by apply convertible_or_else.
Qed.

Lemma truthy_VStr (s : string) : s ≠ "" → truthy (VStr s) = true.
Proof. intros Hs. simpl. by destruct (String.eqb_spec s ""). Qed.

Ltac context_field :=
  rewrite ?get_context;
  cbn [assoc String.eqb Ascii.eqb Bool.eqb default context_properties id];
  rewrite ?or_else_idem by (try apply or_else_truthy; done).

(** C6 (amended).  [detectErrorCategory] is a function of its input.
    Building the context of a context record succeeds, and the result
    agrees with a single application to the original record on every
    field other than timestamp and errorCategory; on timestamp when the
    input has one (the second application always keeps the timestamp the
    first one chose); and on errorCategory when the input has no truthy
    errorMessage, a property the context record does not carry over. *)
Theorem buildTransactionContext_twice now1 now2 now3
    (txData ctx1 : gmap string value) :
  buildTransactionContext now1 txData = Normal ctx1 →
  ∃ ctx2 ctx3,
    buildTransactionContext now2 ctx1 = Normal ctx2 ∧
    buildTransactionContext now3 txData = Normal ctx3 ∧
    (∀ f, f ≠ "errorCategory" → f ≠ "timestamp" → ctx2 !! f = ctx3 !! f) ∧
    (truthy (get txData "timestamp") = true →
       ctx2 !! "timestamp" = ctx3 !! "timestamp") ∧
    (now1 ≠ "" → ctx2 !! "timestamp" = ctx1 !! "timestamp") ∧
    (truthy (get txData "errorMessage") = false →
       ctx2 !! "errorCategory" = ctx3 !! "errorCategory") ∧
    (∀ c c', detectErrorCategory txData = Normal c →
             detectErrorCategory txData = Normal c' → c = c').
Proof.
  intros (c1 & Hc1 & ->)%buildTransactionContext_inv.
  destruct (detectErrorCategory_context_returns now1 txData c1) as [c2 Hc2];
    [by rewrite Hc1; apply returns_Normal|].
  eexists _, _. split_and!.
  - by apply buildTransactionContext_Normal.
  - by apply buildTransactionContext_Normal.
  - intros f Hcat Htime. rewrite !list_to_map_assoc.
    cbn [assoc context_properties].
    repeat match goal with
    | |- context [String.eqb ?k f] =>
        destruct (String.eqb_spec k f) as [<-|?]
    end; try done; f_equal; by context_field.
  - intros Ht. rewrite !list_to_map_assoc.
    cbn [assoc String.eqb Ascii.eqb Bool.eqb context_properties]. f_equal.
    context_field.
    by rewrite !(or_else_l (get txData "timestamp")).
  - intros Hnow%truthy_VStr. rewrite !list_to_map_assoc.
    cbn [assoc String.eqb Ascii.eqb Bool.eqb context_properties]. f_equal.
    by context_field.
  - intros Hm. rewrite !list_to_map_assoc.
    cbn [assoc String.eqb Ascii.eqb Bool.eqb context_properties]. do 2 f_equal.
    unfold detectErrorCategory in Hc1, Hc2.
    destruct (search_string txData) as [s|] eqn:Hs; [|done].
    destruct (search_twice now1 txData c1 s Hm Hs) as (s' & Hs' & Hsame).
    rewrite Hs' in Hc2. apply Normal_inj in Hc1, Hc2. congruence.
  - congruence.
Qed.

End twice.

(** * Further properties of the classifier *)

Section priority.
Context {numbers : Number} {texts : CaseMapping}.

Lemma append_assoc (a b c : string) : (a +:+ b) +:+ c = a +:+ b +:+ c.
Proof. induction a as [|x a IH]; simpl; [done | by rewrite IH]. Qed.

Lemma occurs_in_app_l (p a b : string) :
  occurs_in p a → occurs_in p (a +:+ b).
Proof.
  intros (u & v & ->). exists u, (v +:+ b).
  by rewrite !append_assoc.
Qed.

Lemma occurs_in_app_r (p a b : string) :
  occurs_in p b → occurs_in p (a +:+ b).
Proof.
  intros (u & v & ->). exists (a +:+ u), v.
  by rewrite !append_assoc.
Qed.

(** A text found in one field is found in the search string. *)
Lemma occurs_in_search_string (p e r m : string) :
  occurs_in p (toLowerCase e) ∨ occurs_in p (toLowerCase r)
    ∨ occurs_in p (toLowerCase m) →
  occurs_in p (toLowerCase (e +:+ " " +:+ r +:+ " " +:+ m)).
Proof.
  rewrite toLowerCase_join. intros [He | [Hr | Hm]].
  - by apply occurs_in_app_l.
  - by apply occurs_in_app_r, occurs_in_app_r, occurs_in_app_l.
  - by do 4 apply occurs_in_app_r.
Qed.

(** When the entry at position [i] matches, the loop stops at some
    position [j <= i]. *)
Lemma first_match_at_most searchStr (entries : list (string * pattern_entry))
    i key entry :
  entries !! i = Some (key, entry) →
  entry_matches searchStr entry = true →
  ∃ j key' entry',
    j ≤ i ∧ entries !! j = Some (key', entry') ∧
    entry_matches searchStr entry' = true ∧
    first_match searchStr entries = category_object key' entry'.
Proof.
  revert i. induction entries as [|[k0 e0] entries IH]; intros i Hi Hhit.
  - by rewrite lookup_nil in Hi.
  - simpl. destruct (entry_matches searchStr e0) eqn:H0.
    + exists 0, k0, e0. split_and!; [lia | done..].
    + destruct i as [|i]; simpl in Hi.
      * injection Hi as -> ->. congruence.
      * destruct (IH i Hi Hhit) as (j & k' & e' & Hj & Hlook & Hhit' & Hrun).
        exists (S j), k', e'. split_and!; [lia | done..].
Qed.

Lemma first_match_cases searchStr (entries : list (string * pattern_entry)) :
  first_match searchStr entries = UNKNOWN ∨
  ∃ key entry, (key, entry) ∈ entries ∧
    first_match searchStr entries = category_object key entry.
Proof.
  induction entries as [|[k e] entries IH]; simpl; [by left|].
  destruct (entry_matches searchStr e).
  - right. exists k, e. split; [constructor | done].
  - destruct IH as [IH | (k' & e' & Hin & IH)]; [by left|].
    right. exists k', e'. split; [by constructor | done].
Qed.

Lemma search_string_lower (tx1 tx2 : gmap string value) e1 r1 m1 e2 r2 m2 :
  field_text tx1 "error" = Normal e1 →
  field_text tx1 "revertReason" = Normal r1 →
  field_text tx1 "errorMessage" = Normal m1 →
  field_text tx2 "error" = Normal e2 →
  field_text tx2 "revertReason" = Normal r2 →
  field_text tx2 "errorMessage" = Normal m2 →
  toLowerCase e1 = toLowerCase e2 →
  toLowerCase r1 = toLowerCase r2 →
  toLowerCase m1 = toLowerCase m2 →
  search_string tx1 = search_string tx2.
Proof.
  intros He1 Hr1 Hm1 He2 Hr2 Hm2 He Hr Hm.
  rewrite (search_string_fields _ _ _ _ He1 Hr1 Hm1),
          (search_string_fields _ _ _ _ He2 Hr2 Hm2).
  rewrite !toLowerCase_join. by rewrite He, Hr, Hm.
Qed.

(** X1.  Classification ignores letter case: two records whose three
    field texts agree once lower-cased get the same result. *)
Theorem detectErrorCategory_case_insensitive
    (tx1 tx2 : gmap string value) e1 r1 m1 e2 r2 m2 :
  field_text tx1 "error" = Normal e1 →
  field_text tx1 "revertReason" = Normal r1 →
  field_text tx1 "errorMessage" = Normal m1 →
  field_text tx2 "error" = Normal e2 →
  field_text tx2 "revertReason" = Normal r2 →
  field_text tx2 "errorMessage" = Normal m2 →
  toLowerCase e1 = toLowerCase e2 →
  toLowerCase r1 = toLowerCase r2 →
  toLowerCase m1 = toLowerCase m2 →
  detectErrorCategory tx1 = detectErrorCategory tx2.
Proof.
  intros He1 Hr1 Hm1 He2 Hr2 Hm2 He Hr Hm. unfold detectErrorCategory.
  by rewrite (search_string_lower tx1 tx2 e1 r1 m1 e2 r2 m2).
Qed.

Lemma category_object_lookups key entry :
  category_object key entry !! "key" = Some (VStr key) ∧
  category_object key entry !! "category" = Some (VStr (category entry)) ∧
  category_object key entry !! "patterns"
    = Some (VArr (VStr <$> patterns entry)) ∧
  ∀ k, k ≠ "key" → k ≠ "category" → k ≠ "patterns" →
       category_object key entry !! k = None.
Proof.
  unfold category_object. split_and!.
  - apply lookup_insert_eq.
  - rewrite !lookup_insert_ne by done. apply lookup_singleton_eq.
  - rewrite lookup_insert_ne by done. apply lookup_insert_eq.
  - intros k Hk Hc Hp. rewrite !lookup_insert_ne by done.
    by apply lookup_singleton_ne.
Qed.

Lemma UNKNOWN_lookups :
  UNKNOWN !! "key" = Some (VStr "UNKNOWN") ∧
  UNKNOWN !! "category" = Some (VStr "Unknown Error") ∧
  UNKNOWN !! "patterns" = Some (VArr []) ∧
  ∀ k, k ≠ "key" → k ≠ "category" → k ≠ "patterns" → UNKNOWN !! k = None.
Proof.
  unfold UNKNOWN. split_and!.
  - apply lookup_insert_eq.
  - rewrite lookup_insert_ne by done. apply lookup_insert_eq.
  - rewrite !lookup_insert_ne by done. apply lookup_singleton_eq.
  - intros k Hk Hc Hp. rewrite !lookup_insert_ne by done.
    by apply lookup_singleton_ne.
Qed.

Lemma catalog_entry_sound key entry :
  (key, entry) ∈ ERROR_PATTERNS → patterns entry ≠ [] ∧ key ≠ "UNKNOWN".
Proof.
  unfold ERROR_PATTERNS. intros Hin.
  repeat (apply elem_of_cons in Hin as [[= -> ->]|Hin]; [done|]).
  by apply elem_of_nil in Hin.
Qed.

(** X2.  A result of [detectErrorCategory] has exactly the properties
    key, category and patterns, with a string, a string and an array of
    strings.  The three come together from one entry of the catalog, with
    at least one pattern, or they are the sentinel UNKNOWN / Unknown Error
    with no pattern. *)
Theorem detectErrorCategory_result_shape (txData c : gmap string value) :
  detectErrorCategory txData = Normal c →
  ∃ key cat pats,
    c !! "key" = Some (VStr key) ∧
    c !! "category" = Some (VStr cat) ∧
    c !! "patterns" = Some (VArr (VStr <$> pats)) ∧
    (∀ k, k ≠ "key" → k ≠ "category" → k ≠ "patterns" → c !! k = None) ∧
    ((key = "UNKNOWN" ∧ cat = "Unknown Error" ∧ pats = []) ∨
     ((key, {| patterns := pats; category := cat |}) ∈ ERROR_PATTERNS ∧
      pats ≠ [] ∧ key ≠ "UNKNOWN")).
Proof.
  unfold detectErrorCategory.
  destruct (search_string txData) as [s|]; [|done]. intros <-%Normal_inj.
  destruct (first_match_cases s ERROR_PATTERNS)
    as [-> | (key & [pats cat] & Hin & ->)].
  - exists "UNKNOWN", "Unknown Error", [].
    destruct UNKNOWN_lookups as (Hk & Hc & Hp & Hrest).
    split_and!; [done..|]. by left.
  - exists key, cat, pats.
    destruct (category_object_lookups key {| patterns := pats; category := cat |})
      as (Hk & Hc & Hp & Hrest).
    split_and!; [done..|]. right.
    destruct (catalog_entry_sound _ _ Hin). by split_and!.
Qed.

(** X3.  A catalog substring found in any one field is never lost: when
    a pattern of the entry at position [i] occurs in the error, the
    revert reason or the error message, the result is the entry at some
    position [j <= i], one of whose patterns occurs in the search string;
    it is never a later entry and never the sentinel. *)
Theorem detectErrorCategory_priority (txData : gmap string value)
    e r m i key entry p :
  field_text txData "error" = Normal e →
  field_text txData "revertReason" = Normal r →
  field_text txData "errorMessage" = Normal m →
  ERROR_PATTERNS !! i = Some (key, entry) →
  p ∈ patterns entry →
  occurs_in (toLowerCase p) (toLowerCase e)
    ∨ occurs_in (toLowerCase p) (toLowerCase r)
    ∨ occurs_in (toLowerCase p) (toLowerCase m) →
  ∃ j key' entry',
    j ≤ i ∧ ERROR_PATTERNS !! j = Some (key', entry') ∧
    detectErrorCategory txData = Normal (category_object key' entry') ∧
    category_object key' entry' ≠ UNKNOWN.
Proof.
  intros He Hr Hm Hi Hp Hocc.
  apply occurs_in_search_string in Hocc.
  assert (entry_matches (toLowerCase (e +:+ " " +:+ r +:+ " " +:+ m)) entry
          = true) as Hhit by (apply entry_matches_true_iff; eauto).
  destruct (first_match_at_most _ _ _ _ _ Hi Hhit)
    as (j & key' & entry' & Hj & Hlook & _ & Hrun).
  exists j, key', entry'. split_and!; [done..| |].
  - rewrite (detectErrorCategory_search _ _
               (search_string_fields _ _ _ _ He Hr Hm)).
    by rewrite Hrun.
  - apply category_object_not_UNKNOWN.
    by apply (catalog_entry_sound key' entry'), list_elem_of_lookup_2 with j.
Qed.

(** X4.  REVERT_NO_REASON is the second entry, so the usual error text
    of a revert decides the category: a record with "execution reverted"
    in one of its three fields is classified OUT_OF_GAS or
    REVERT_NO_REASON, whatever its revert reason says, and never
    SLIPPAGE, ALLOWANCE, BALANCE or any later category. *)
Theorem detectErrorCategory_revert_shadows (txData : gmap string value) e r m :
  field_text txData "error" = Normal e →
  field_text txData "revertReason" = Normal r →
  field_text txData "errorMessage" = Normal m →
  occurs_in "execution reverted" (toLowerCase e)
    ∨ occurs_in "execution reverted" (toLowerCase r)
    ∨ occurs_in "execution reverted" (toLowerCase m) →
  ∃ c, detectErrorCategory txData = Normal c ∧
       (c !! "key" = Some (VStr "OUT_OF_GAS") ∧
          c !! "category" = Some (VStr "Gas Error")
        ∨ c !! "key" = Some (VStr "REVERT_NO_REASON") ∧
          c !! "category" = Some (VStr "Execution Revert")).
Proof.
  intros He Hr Hm Hocc.
  apply (occurs_in_search_string "execution reverted") in Hocc.
  assert (entry_matches (toLowerCase (e +:+ " " +:+ r +:+ " " +:+ m))
            {| patterns := ["execution reverted"; "transaction reverted"];
               category := "Execution Revert" |} = true) as Hhit.
  { apply entry_matches_true_iff. exists "execution reverted".
    split; [constructor|].
    by rewrite (toLowerCase_ascii "execution reverted") by reflexivity. }
  destruct (first_match_at_most _ ERROR_PATTERNS 1 "REVERT_NO_REASON" _
              eq_refl Hhit)
    as (j & key' & entry' & Hj & Hlook & _ & Hrun).
  eexists. split.
  { rewrite (detectErrorCategory_search _ _
               (search_string_fields _ _ _ _ He Hr Hm)).
    by rewrite Hrun. }
  destruct (category_object_lookups key' entry') as (Hk & Hc & _).
  rewrite Hk, Hc.
  destruct j as [|[|j]]; [| |lia]; injection Hlook as <- <-; auto.
Qed.

(** X5.  No entry of the catalog is shadowed by the entries before it:
    for every entry there is a record that is classified as that entry.
    Keys are not repeated, so a key names one entry. *)
Theorem catalog_entries_reachable key entry :
  (key, entry) ∈ ERROR_PATTERNS →
  (∃ txData : gmap string value,
     detectErrorCategory txData = Normal (category_object key entry)) ∧
  (∀ entry', (key, entry') ∈ ERROR_PATTERNS → entry' = entry).
Proof.
  unfold ERROR_PATTERNS at 1. intros Hin. split.
  - repeat (apply elem_of_cons in Hin as [[= -> ->]|Hin];
      [lazymatch goal with
       | |- context [category_object _ ?e] =>
           let p := eval cbv in (hd "" (patterns e)) in
           exists {[ "error" := VStr p ]};
           etransitivity;
             [eapply detectErrorCategory_ascii; reflexivity | reflexivity]
       end|]).
    by apply elem_of_nil in Hin.
  - intros entry' Hin'. unfold ERROR_PATTERNS in Hin'.
    repeat (apply elem_of_cons in Hin as [[= -> ->]|Hin];
      [repeat (apply elem_of_cons in Hin' as [Heq|Hin']; [by simplify_eq|]);
       by apply elem_of_nil in Hin'|]).
    by apply elem_of_nil in Hin.
Qed.

(** X6.  A record whose error, revert reason and error message are all
    absent or falsy is classified UNKNOWN. *)
Theorem detectErrorCategory_no_text (txData : gmap string value) :
  truthy (get txData "error") = false →
  truthy (get txData "revertReason") = false →
  truthy (get txData "errorMessage") = false →
  detectErrorCategory txData = Normal UNKNOWN.
Proof.
  intros He Hr Hm.
  rewrite (detectErrorCategory_search _ _
             (search_string_fields _ _ _ _ (field_text_falsy _ _ He)
                (field_text_falsy _ _ Hr) (field_text_falsy _ _ Hm))).
  rewrite (toLowerCase_ascii ("" +:+ " " +:+ "" +:+ " " +:+ "")) by reflexivity.
  by rewrite first_match_ascii.
Qed.

End priority.

(** * Further properties of the context record *)

Section frame.
Context {numbers : Number} {texts : CaseMapping}.

Lemma assoc_not_key (props : list (string * value)) k :
  k ∉ props.*1 → assoc k props = None.
Proof.
  induction props as [|[k' v] props IH]; simpl; [done|].
  intros Hk. apply not_elem_of_cons in Hk as [Hne Hk].
  destruct (String.eqb_spec k' k); [congruence | by apply IH].
Qed.

Lemma context_properties_truthy now (txData c : gmap string value) :
  now ≠ "" →
  Forall (λ kv, truthy kv.2 = true) (context_properties now txData c).
Proof.
  intros Hnow%truthy_VStr.
  repeat constructor; simpl; by repeat apply or_else_truthy.
Qed.

Lemma assoc_Forall (P : value → Prop) (props : list (string * value)) k :
  Forall (λ kv, P kv.2) props →
  k ∈ props.*1 →
  ∃ v, assoc k props = Some v ∧ P v.
Proof.
  induction 1 as [|[k' v] props Hv _ IH]; simpl.
  - by intros ?%elem_of_nil.
  - intros Hin. destruct (String.eqb_spec k' k) as [->|Hne]; [by exists v|].
    apply elem_of_cons in Hin as [->|Hin]; [done | by apply IH].
Qed.

(** X7.  A property the record supplies with a truthy value reaches the
    context unchanged, whatever its type; only errorCategory is always
    replaced by the classification. *)
Theorem buildTransactionContext_keeps_supplied now
    (txData : gmap string value) f :
  returns (detectErrorCategory txData) →
  f ∈ canonical_fields →
  f ≠ "errorCategory" →
  truthy (get txData f) = true →
  ∃ ctx, buildTransactionContext now txData = Normal ctx ∧
         ctx !! f = Some (get txData f).
Proof.
  intros [c Hc] Hf Hcat Hv.
  eexists. split; [by apply buildTransactionContext_Normal|].
  rewrite list_to_map_assoc. unfold canonical_fields in Hf.
  repeat (apply elem_of_cons in Hf as [->|Hf];
    [first [done | simpl; by rewrite !(or_else_l _ _ Hv)]|]).
  by apply elem_of_nil in Hf.
Qed.

(** X8.  With a clock that prints a non-empty text, every field of the
    context is truthy: none is null, false, zero or the empty string. *)
Theorem buildTransactionContext_truthy now (txData : gmap string value) f :
  now ≠ "" →
  returns (detectErrorCategory txData) →
  f ∈ canonical_fields →
  ∃ ctx v, buildTransactionContext now txData = Normal ctx ∧
           ctx !! f = Some v ∧ truthy v = true.
Proof.
  intros Hnow [c Hc] Hf.
  destruct (assoc_Forall (λ v, truthy v = true)
              (context_properties now txData c) f) as (v & Hv & Htruthy).
  { by apply context_properties_truthy. }
  { by rewrite context_properties_keys. }
  exists (list_to_map (context_properties now txData c)), v.
  split_and!; [by apply buildTransactionContext_Normal | | done].
  by rewrite list_to_map_assoc.
Qed.

(** X9.  The context has the nineteen canonical fields and nothing else:
    any other property of the record, errorMessage included, is left
    out. *)
Theorem buildTransactionContext_only_canonical now
    (txData ctx : gmap string value) k :
  buildTransactionContext now txData = Normal ctx →
  (is_Some (ctx !! k) ↔ k ∈ canonical_fields) ∧
  ctx !! "errorMessage" = None.
Proof.
  intros (c & Hc & ->)%buildTransactionContext_inv.
  rewrite !list_to_map_assoc. split; [|reflexivity]. split.
  - intros Hsome. destruct (decide (k ∈ canonical_fields)) as [|Hk]; [done|].
    rewrite assoc_not_key in Hsome by by rewrite context_properties_keys.
    by destruct Hsome.
  - intros Hk.
    destruct (assoc_defined (context_properties now txData c) k)
      as (v & -> & _); [apply context_properties_defined | | done].
    by rewrite context_properties_keys.
Qed.

End frame.

(** * Properties of the orchestration *)

Section conversion.
Context {numbers : Number} {texts : CaseMapping}.

(** The classification always carries one of the eleven labels. *)
Lemma detectErrorCategory_label (txData c : gmap string value) :
  detectErrorCategory txData = Normal c →
  ∃ cat, get c "category" = VStr cat ∧ cat ∈ category_labels.
Proof.
  unfold detectErrorCategory.
  destruct (search_string txData) as [s|]; [|done]. intros <-%Normal_inj.
  destruct (first_match_cases s ERROR_PATTERNS)
    as [-> | (key & entry & Hin & ->)].
  - exists "Unknown Error". split; [reflexivity | constructor].
  - exists (category entry). split.
    + unfold get. by destruct (category_object_lookups key entry) as (_ & -> & _).
    + apply elem_of_cons. right.
      by apply (list_elem_of_fmap_2 (λ ke : string * pattern_entry, category ke.2)) in Hin.
Qed.

End conversion.

(** * Properties of the conversation *)

Section dialogue.
Context {numbers : Number} {texts : CaseMapping} {World : Type}.
Variable create : request → World → outcome string * World.
Variable clock : World → string.
Variable stringify : value → World → string.

Lemma io_bind_unfold {W A B} (m : @io W A) (f : A → @io W B) w :
  (m ≫= f) w
  = match m w with
    | (Done a, w') => f a w'
    | (Failed msg, w') => (Failed msg, w')
    end.
Proof. reflexivity. Qed.

Ltac shown ctx k :=
  destruct (to_string_cases (get ctx k)) as [[[? ->] ?]|[-> ?]];
  [ cbn [mbind completion_bind to_string]
  | right; split; [done | exists k; split; [repeat constructor | done]] ].

(** The prompt can be written exactly when every field it prints can be
    converted. *)
Lemma userPrompt_cases (json : value → string) (ctx c : gmap string value) cat :
  get ctx "errorCategory" = VObj c →
  get c "category" = VStr cat →
  (∃ prompt, userPrompt json ctx = Normal prompt)
    ∧ (∀ k, k ∈ shown_fields → convertible (get ctx k) = true)
  ∨ userPrompt json ctx = Throw conversion_error
    ∧ (∃ k, k ∈ shown_fields ∧ convertible (get ctx k) = false).
Proof.
  intros Hc Hcat. unfold userPrompt. rewrite Hc.
  cbn [member]. rewrite Hcat.
  shown ctx "hash". shown ctx "network". shown ctx "timestamp".
  shown ctx "from". shown ctx "to". shown ctx "contractName".
  shown ctx "contractAddress". shown ctx "functionName". shown ctx "value".
  shown ctx "gasUsed". shown ctx "gasLimit". shown ctx "gasPrice".
  shown ctx "error". shown ctx "revertReason". shown ctx "inputData".
  left. split; [by eexists|]. intros k Hk.
  repeat (apply elem_of_cons in Hk as [->|Hk]); try done.
  by apply elem_of_nil in Hk.
Qed.

(** The prompt reads the printed fields, the category label and the JSON
    text of the additional context, and nothing else. *)
Lemma userPrompt_ext (json1 json2 : value → string)
    (ctx1 ctx2 : gmap string value) :
  (∀ k, k ∈ shown_fields → get ctx1 k = get ctx2 k) →
  get ctx1 "errorCategory" = get ctx2 "errorCategory" →
  json1 (get ctx1 "additionalContext") = json2 (get ctx2 "additionalContext") →
  userPrompt json1 ctx1 = userPrompt json2 ctx2.
Proof.
  intros Hshown Hc Ha. unfold userPrompt. rewrite Hc, Ha.
  by rewrite !Hshown by repeat constructor.
Qed.

(** What the context shows of a record, field by field. *)
Lemma context_shown now k :
  k ∈ shown_fields →
  ∃ d, ∀ txData c : gmap string value,
    get (list_to_map (context_properties now txData c)) k
    = or_else (if decide (k = "contractAddress")
               then or_else (get txData "contractAddress") (get txData "to")
               else get txData k) (VStr d).
Proof.
  intros Hk.
  repeat (apply elem_of_cons in Hk as [->|Hk]);
    [eexists; intros; by rewrite get_context..|by apply elem_of_nil in Hk].
Qed.

Lemma context_errorCategory now (txData c : gmap string value) :
  get (list_to_map (context_properties now txData c)) "errorCategory" = VObj c.
Proof. by rewrite get_context. Qed.

Lemma context_additionalContext now (txData c : gmap string value) :
  get (list_to_map (context_properties now txData c)) "additionalContext"
  = or_else (get txData "additionalContext") (VObj ∅).
Proof. by rewrite get_context. Qed.

Lemma or_else_unconvertible (a : value) (d : string) :
  convertible (or_else a (VStr d)) = false →
  truthy a = true ∧ convertible a = false.
Proof. unfold or_else. by destruct (truthy a). Qed.

Lemma context_shown_unconvertible now (txData c : gmap string value) k :
  k ∈ shown_fields →
  convertible (get (list_to_map (context_properties now txData c)) k) = false →
  ∃ k', k' ∈ shown_fields ∧ truthy (get txData k') = true ∧
        convertible (get txData k') = false.
Proof.
  intros Hk. destruct (context_shown now k Hk) as [d ->].
  intros [Hv Hconv]%or_else_unconvertible.
  destruct (decide (k = "contractAddress")) as [->|_]; [|by exists k].
  revert Hv Hconv. unfold or_else.
  destruct (truthy (get txData "contractAddress")) eqn:Ha; intros Hv Hconv.
  - by exists "contractAddress".
  - exists "to". split_and!; [repeat constructor | done..].
Qed.

(** Once the context and the first prompt are there, the rest of
    [diagnoseTxFailure] is the three requests. *)
Lemma diagnoseTxFailure_conversation (txData ctx : gmap string value) prompt w :
  buildTransactionContext (clock w) txData = Normal ctx →
  userPrompt (λ v, stringify v w) ctx = Normal prompt →
  diagnoseTxFailure create clock stringify txData w
  = conversation create ctx prompt w.
Proof.
  intros Hctx Hprompt.
  unfold diagnoseTxFailure, conversation, first_turn, second_turn, third_turn.
  unfold mbind at 1, io_bind at 1, lift at 1. rewrite Hctx. cbn [caught].
  unfold mbind at 1, io_bind at 1, lift at 1. rewrite Hprompt. cbn [caught].
  unfold mbind at 1, io_bind at 1.
  destruct (create _ w) as [[d|msg] w1]; [|done].
  unfold mbind at 1, io_bind at 1. cbn [app].
  destruct (create _ w1) as [[f|msg] w2]; [|done].
  unfold mbind at 1, io_bind at 1. cbn [app].
  by destruct (create _ w2) as [[r|msg] w3].
Qed.

(** The two ways [diagnoseTxFailure] goes: it stops before any request
    with the conversion error, or it holds the conversation. *)
Lemma diagnoseTxFailure_Throw (txData : gmap string value) w e :
  buildTransactionContext (clock w) txData = Throw e →
  diagnoseTxFailure create clock stringify txData w = (Failed (message_of e), w).
Proof.
  intros Hctx. unfold diagnoseTxFailure.
  unfold mbind at 1, io_bind at 1, lift at 1. by rewrite Hctx.
Qed.

Lemma diagnoseTxFailure_prompt_Throw (txData ctx : gmap string value) w e :
  buildTransactionContext (clock w) txData = Normal ctx →
  userPrompt (λ v, stringify v w) ctx = Throw e →
  diagnoseTxFailure create clock stringify txData w = (Failed (message_of e), w).
Proof.
  intros Hctx Hprompt. unfold diagnoseTxFailure.
  unfold mbind at 1, io_bind at 1, lift at 1. rewrite Hctx. cbn [caught].
  unfold mbind at 1, io_bind at 1, lift at 1. by rewrite Hprompt.
Qed.

Lemma diagnoseTxFailure_cases (txData : gmap string value) w :
  (∃ k, k ∈ converted_fields ∧ truthy (get txData k) = true ∧
        convertible (get txData k) = false)
    ∧ diagnoseTxFailure create clock stringify txData w
      = (Failed "Cannot convert object to primitive value", w)
  ∨ (∀ k, k ∈ converted_fields → truthy (get txData k) = true →
          convertible (get txData k) = true)
    ∧ ∃ c prompt,
        detectErrorCategory txData = Normal c ∧
        userPrompt (λ v, stringify v w) (list_to_map (context_properties (clock w) txData c))
        = Normal prompt ∧
        diagnoseTxFailure create clock stringify txData w
        = conversation create
            (list_to_map (context_properties (clock w) txData c)) prompt w.
Proof.
  destruct (detectErrorCategory_cases txData)
    as [[[c Hc] Htext] | [Hthrow (k & Hk & Hv & Hconv)]].
  - destruct (detectErrorCategory_label _ _ Hc) as (cat & Hcat & _).
    pose proof (buildTransactionContext_Normal (clock w) _ _ Hc) as Hctx.
    destruct (userPrompt_cases (λ v, stringify v w) _ _ _
                (context_errorCategory (clock w) txData c) Hcat)
      as [[[prompt Hprompt] Hshown] | [Hprompt (k & Hk & Hconv)]].
    + right. split.
      * intros k [->|Hk]%elem_of_cons Hv.
        -- apply Htext; [repeat constructor | done].
        -- specialize (Hshown k Hk).
           destruct (context_shown (clock w) k Hk) as [d Hd].
           rewrite Hd in Hshown.
           destruct (decide (k = "contractAddress")) as [->|_].
           ++ by rewrite !(or_else_l _ _ Hv) in Hshown.
           ++ by rewrite (or_else_l _ _ Hv) in Hshown.
      * exists c, prompt. split_and!; [done..|].
        by apply diagnoseTxFailure_conversation.
    + left. split.
      * destruct (context_shown_unconvertible _ _ _ _ Hk Hconv)
          as (k' & Hk' & Hv' & Hconv').
        exists k'. split_and!; [|done..]. apply elem_of_cons. by right.
      * by rewrite (diagnoseTxFailure_prompt_Throw _ _ _ _ Hctx Hprompt).
  - left. split.
    + exists k. split_and!; [|done..].
      repeat (apply elem_of_cons in Hk as [->|Hk]);
        [repeat constructor..|by apply elem_of_nil in Hk].
    + apply (diagnoseTxFailure_Throw _ _ conversion_error).
      unfold buildTransactionContext. by rewrite Hthrow.
Qed.

End dialogue.

Section transcript.
Context {numbers : Number} {texts : CaseMapping} {World : Type}.
Variable create : request → World → outcome string * World.
Variable clock : World → string.
Variable stringify : value → World → string.

(** The four ways a conversation can go, with what is written down. *)
Lemma conversation_transcript (ctx : gmap string value) prompt w log out w' log' :
  conversation (recorded create) ctx prompt (w, log) = (out, (w', log')) →
  (∃ msg, out = Failed msg ∧
     log' = log ++ [(first_turn prompt, Failed msg)])
  ∨ (∃ d msg, out = Failed msg ∧
       log' = log ++ [(first_turn prompt, Done d);
                      (second_turn prompt d, Failed msg)])
  ∨ (∃ d f msg, out = Failed msg ∧
       log' = log ++ [(first_turn prompt, Done d);
                      (second_turn prompt d, Done f);
                      (third_turn prompt d f, Failed msg)])
  ∨ (∃ d f r,
       out = Done {| transactionContext := ctx; diagnosis := d; codeFix := f;
                     riskAssessment := r;
                     errorCategory := get ctx "errorCategory";
                     conversationTurns := 3 |} ∧
       log' = log ++ [(first_turn prompt, Done d);
                      (second_turn prompt d, Done f);
                      (third_turn prompt d f, Done r)]).
Proof.
  unfold conversation, recorded.
  destruct (create _ w) as [[d|msg] w1].
  2: { intros [= <- <- <-]. left. by exists msg. }
  destruct (create _ w1) as [[f|msg] w2].
  2: { intros [= <- <- <-]. right. left. exists d, msg.
       by rewrite <- (assoc_L (++)). }
  destruct (create _ w2) as [[r|msg] w3].
  2: { intros [= <- <- <-]. right. right. left. exists d, f, msg.
       by rewrite <- !(assoc_L (++)). }
  intros [= <- <- <-]. right. right. right. exists d, f, r.
  by rewrite <- !(assoc_L (++)).
Qed.

(** A run against the recording service, by cases. *)
Lemma diagnoseTxFailure_recorded (txData : gmap string value) w log out w' log' :
  diagnoseTxFailure (recorded create) (λ s, clock s.1) (λ v s, stringify v s.1) txData (w, log)
  = (out, (w', log')) →
  (∃ k, k ∈ converted_fields ∧ truthy (get txData k) = true ∧
        convertible (get txData k) = false)
    ∧ out = Failed "Cannot convert object to primitive value"
    ∧ w' = w ∧ log' = log
  ∨ (∀ k, k ∈ converted_fields → truthy (get txData k) = true →
          convertible (get txData k) = true)
    ∧ ∃ c prompt,
        detectErrorCategory txData = Normal c ∧
        userPrompt (λ v, stringify v w) (list_to_map (context_properties (clock w) txData c))
        = Normal prompt ∧
        conversation (recorded create)
          (list_to_map (context_properties (clock w) txData c)) prompt (w, log)
        = (out, (w', log')).
Proof.
  intros Hrun.
  destruct (diagnoseTxFailure_cases (recorded create) (λ s, clock s.1)
              (λ v s, stringify v s.1) txData (w, log))
    as [[Hbad Heq] | [Hgood (c & prompt & Hc & Hprompt & Heq)]];
    rewrite Heq in Hrun.
  - left. by injection Hrun as <- <- <-.
  - right. split; [done|]. by exists c, prompt.
Qed.

(** X10.  Whether the service is contacted at all.  A diagnosis sends no
    request exactly when one of the properties error, revertReason,
    errorMessage or a property printed in the prompt holds a truthy value
    that cannot be converted to a string; the caller then gets the
    conversion error and the service is left untouched.  In every other
    case the first request goes out, and it carries the prompt written
    from the context.  The properties status and nonce play no part. *)
Theorem diagnoseTxFailure_first_request
    (txData : gmap string value) w log out w' log' :
  diagnoseTxFailure (recorded create) (λ s, clock s.1) (λ v s, stringify v s.1) txData (w, log)
  = (out, (w', log')) →
  (∃ k, k ∈ converted_fields ∧ truthy (get txData k) = true ∧
        convertible (get txData k) = false)
    ∧ out = Failed "Cannot convert object to primitive value"
    ∧ w' = w ∧ log' = log
  ∨ (∀ k, k ∈ converted_fields → truthy (get txData k) = true →
          convertible (get txData k) = true)
    ∧ ∃ ctx prompt answer rest,
        buildTransactionContext (clock w) txData = Normal ctx ∧
        userPrompt (λ v, stringify v w) ctx = Normal prompt ∧
        log' = log ++ (first_turn prompt, answer) :: rest.
Proof.
  intros [Hbad | [Hgood (c & prompt & Hc & Hprompt & Hconv)]]%diagnoseTxFailure_recorded;
    [by left | right]. split; [done|].
  exists (list_to_map (context_properties (clock w) txData c)), prompt.
  pose proof (buildTransactionContext_Normal (clock w) _ _ Hc) as Hctx.
  apply conversation_transcript in Hconv
    as [(msg & _ & ->) | [(d & msg & _ & ->) | [(d & f & msg & _ & ->)
       | (d & f & r & _ & ->)]]]; by repeat eexists.
Qed.

(** X11.  The shape of the conversation.  A diagnosis sends at most three
    requests.  Each names the same model, token limit and system prompt;
    the request at position i carries 2i+1 messages whose roles alternate,
    starting and ending with the user.  A request is followed by another
    only if it was answered, and the next request then repeats its
    messages and adds the answer and the fixed follow-up question of that
    turn. *)
Theorem diagnoseTxFailure_protocol
    (txData : gmap string value) w log out w' log' :
  diagnoseTxFailure (recorded create) (λ s, clock s.1) (λ v s, stringify v s.1) txData (w, log)
  = (out, (w', log')) →
  ∃ sent,
    log' = log ++ sent ∧ length sent ≤ 3 ∧
    (∀ i req answer, sent !! i = Some (req, answer) →
       model req = "claude-opus-4-6" ∧ max_tokens req = 8096%Z ∧
       system req = systemPrompt ∧
       length (messages req) = 2 * i + 1 ∧
       (∀ j m, messages req !! j = Some m →
               role m = if Nat.even j then "user" else "assistant")) ∧
    (∀ i req answer req' answer',
       sent !! i = Some (req, answer) → sent !! S i = Some (req', answer') →
       ∃ a, answer = Done a ∧
            messages req'
            = messages req
              ++ [assistant a;
                  user (if i is 0 then codeFixRequest else riskRequest)]).
Proof.
  intros [(_ & _ & _ & ->) | [_ (c & prompt & _ & _ & Hconv)]]%diagnoseTxFailure_recorded.
  { exists []. rewrite (right_id_L [] (++)). split_and!; [done|simpl; lia|..];
      by intros i ? ? ?. }
  apply conversation_transcript in Hconv
    as [(msg & _ & ->) | [(d & msg & _ & ->) | [(d & f & msg & _ & ->)
       | (d & f & r & _ & ->)]]];
    (eexists; split; [reflexivity|]; split; [simpl; lia|]; split;
     [ intros [|[|[|i]]] req answer [= <- <-]; split_and!; try reflexivity;
       intros [|[|[|[|[|j]]]]] m [= <-]; reflexivity
     | intros [|[|[|i]]] req answer req' answer' [= <- <-] [= <- <-];
       eexists; split; reflexivity ]).
Qed.

(** X12.  What the caller gets.  When a diagnosis succeeds, exactly three
    requests were answered; the result carries the three answers in the
    order of the turns, the context record built from the input, under
    errorCategory the classification of the input, and the turn count 3.
    When it fails, either nothing was sent and the message is the
    conversion error, or the message is that of the last request, which
    is the only one that failed: a failed request is not repeated and
    ends the conversation. *)
Theorem diagnoseTxFailure_outcome
    (txData : gmap string value) w log out w' log' :
  diagnoseTxFailure (recorded create) (λ s, clock s.1) (λ v s, stringify v s.1) txData (w, log)
  = (out, (w', log')) →
  ∃ sent,
    log' = log ++ sent ∧
    (∀ i req answer, sent !! i = Some (req, answer) → S i < length sent →
                     ∃ a, answer = Done a) ∧
    match out with
    | Done result =>
        sent.*2 = [Done (diagnosis result); Done (codeFix result);
                   Done (riskAssessment result)] ∧
        buildTransactionContext (clock w) txData
        = Normal (transactionContext result) ∧
        VObj <$> detectErrorCategory txData = Normal (errorCategory result) ∧
        conversationTurns result = 3
    | Failed msg =>
        sent = [] ∧ msg = "Cannot convert object to primitive value"
        ∨ ∃ req, last sent = Some (req, Failed msg)
    end.
Proof.
  intros [(_ & -> & _ & ->) | [_ (c & prompt & Hc & _ & Hconv)]]%diagnoseTxFailure_recorded.
  { exists []. rewrite (right_id_L [] (++)). split_and!; [done| |by left].
    by intros i ? ? ?. }
  pose proof (buildTransactionContext_Normal (clock w) _ _ Hc) as Hctx.
  apply conversation_transcript in Hconv
    as [(msg & -> & ->) | [(d & msg & -> & ->) | [(d & f & msg & -> & ->)
       | (d & f & r & -> & ->)]]];
    (eexists; split; [reflexivity|]; split;
     [ intros [|[|[|i]]] req answer [= <- <-] Hlt; first [by eexists | simpl in Hlt; lia]
     | ]).
  - right. by eexists.
  - right. by eexists.
  - right. by eexists.
  - cbn [diagnosis codeFix riskAssessment transactionContext errorCategory
         conversationTurns].
    split_and!; [reflexivity | done | | done].
    rewrite Hc, context_errorCategory. reflexivity.
Qed.

End transcript.

Section reads.
Context {numbers : Number} {texts : CaseMapping} {World : Type}.
Variable create : request → World → outcome string * World.
Variable clock : World → string.

(** Two records that agree on every property the classifier reads are
    classified alike. *)
Lemma detectErrorCategory_ext (tx1 tx2 : gmap string value) :
  (∀ k, k ∈ text_fields → get tx1 k = get tx2 k) →
  detectErrorCategory tx1 = detectErrorCategory tx2.
Proof.
  intros Heq. unfold detectErrorCategory. rewrite !search_string_unfold.
  by rewrite !Heq by repeat constructor.
Qed.

Lemma conversation_ext (ctx1 ctx2 : gmap string value) prompt
    (s : World * list (request * outcome string)) :
  get ctx1 "errorCategory" = get ctx2 "errorCategory" →
  ∃ out1 out2 s',
    conversation (recorded create) ctx1 prompt s = (out1, s') ∧
    conversation (recorded create) ctx2 prompt s = (out2, s') ∧
    match out1, out2 with
    | Done r1, Done r2 =>
        diagnosis r1 = diagnosis r2 ∧ codeFix r1 = codeFix r2 ∧
        riskAssessment r1 = riskAssessment r2 ∧
        errorCategory r1 = errorCategory r2
    | Failed msg1, Failed msg2 => msg1 = msg2
    | _, _ => False
    end.
Proof.
  intros Hc. unfold conversation.
  destruct (recorded create _ s) as [[d|msg] s1]; [|by repeat eexists].
  destruct (recorded create _ s1) as [[f|msg] s2]; [|by repeat eexists].
  destruct (recorded create _ s2) as [[r|msg] s3]; [|by repeat eexists].
  by repeat eexists.
Qed.

(** X13.  What a diagnosis depends on.  Take two records that agree on
    errorMessage and on the properties printed in the prompt, and whose
    additional contexts are printed by JSON.stringify as the same text
    ([stringify1] and [stringify2] are JSON.stringify on the objects of
    the one and of the other record; the text follows the order of the
    properties, so two objects with the same properties can differ in
    it).  From the same state of the service they lead to the same
    requests in the same order, the same answers and the same final
    state; both diagnoses fail with the same message or both succeed with
    the same three texts and the same classification.  Every other
    property of the record, status and nonce included, is never sent. *)
Theorem diagnoseTxFailure_reads
    (stringify1 stringify2 : value → World → string)
    (tx1 tx2 : gmap string value) w log out1 out2 s1 s2 :
  (∀ k, k ∈ converted_fields → get tx1 k = get tx2 k) →
  stringify1 (or_else (get tx1 "additionalContext") (VObj ∅)) w
  = stringify2 (or_else (get tx2 "additionalContext") (VObj ∅)) w →
  diagnoseTxFailure (recorded create) (λ s, clock s.1)
    (λ v s, stringify1 v s.1) tx1 (w, log)
  = (out1, s1) →
  diagnoseTxFailure (recorded create) (λ s, clock s.1)
    (λ v s, stringify2 v s.1) tx2 (w, log)
  = (out2, s2) →
  s1 = s2 ∧
  match out1, out2 with
  | Done r1, Done r2 =>
      diagnosis r1 = diagnosis r2 ∧ codeFix r1 = codeFix r2 ∧
      riskAssessment r1 = riskAssessment r2 ∧
      errorCategory r1 = errorCategory r2
  | Failed msg1, Failed msg2 => msg1 = msg2
  | _, _ => False
  end.
Proof.
  intros Heq' Hjson.
  assert (detectErrorCategory tx1 = detectErrorCategory tx2) as Hdetect.
  { apply detectErrorCategory_ext. intros k Hk. apply Heq'.
    repeat (apply elem_of_cons in Hk as [->|Hk]);
      [repeat constructor..|by apply elem_of_nil in Hk]. }
  destruct s1 as [w1 log1], s2 as [w2 log2].
  intros [((k1 & Hk1 & Hv1 & Hbad1) & -> & -> & ->)
         | [Hgood1 (c1 & prompt1 & Hc1 & Hprompt1 & Hconv1)]]%diagnoseTxFailure_recorded
         [((k2 & Hk2 & Hv2 & Hbad2) & -> & -> & ->)
         | [Hgood2 (c2 & prompt2 & Hc2 & Hprompt2 & Hconv2)]]%diagnoseTxFailure_recorded.
  - done.
  - rewrite (Heq' _ Hk1) in Hv1, Hbad1. rewrite (Hgood2 _ Hk1 Hv1) in Hbad1. done.
  - rewrite <- (Heq' _ Hk2) in Hv2, Hbad2. rewrite (Hgood1 _ Hk2 Hv2) in Hbad2. done.
  - rewrite Hdetect, Hc2 in Hc1. apply Normal_inj in Hc1 as <-.
    assert (prompt1 = prompt2) as <-.
    { apply Normal_inj. rewrite <- Hprompt1, <- Hprompt2.
      apply userPrompt_ext.
      - intros k Hk.
        destruct (context_shown (clock w) k Hk) as [d Hd]. rewrite !Hd.
        rewrite (Heq' "contractAddress"), (Heq' "to") by repeat constructor.
        rewrite (Heq' k); [done|]. apply elem_of_cons. by right.
      - by rewrite !context_errorCategory.
      - rewrite !context_additionalContext. exact Hjson. }
    destruct (conversation_ext
                (list_to_map (context_properties (clock w) tx1 c2))
                (list_to_map (context_properties (clock w) tx2 c2))
                prompt1 (w, log)) as (o1 & o2 & s' & H1 & H2 & Hrel).
    { by rewrite !context_errorCategory. }
    rewrite Hconv1 in H1. rewrite Hconv2 in H2.
    injection H1 as <- <-. injection H2 as <- <- <-. done.
Qed.

End reads.

(** * Properties of the batch *)

Section batch.
Context {numbers : Number} {texts : CaseMapping} {World : Type}.
Variable create : request → World → outcome string * World.
Variable clock : World → string.
Variable stringify : value → World → string.

(** The log line of an element is written exactly when the element is
    [loggable]. *)
Lemma processing_line_cases (tx : value) :
  (∃ line, processing_line tx = Normal line) ∧ loggable tx = true
  ∨ (∃ e, processing_line tx = Throw e) ∧ loggable tx = false.
Proof.
  destruct tx as [ | |b|n|s|elems|props]; unfold processing_line;
    cbn [member mbind completion_bind loggable];
    try (left; by eauto); try (right; by eauto).
  destruct (to_string_cases (or_else (get props "hash") (VStr "Unknown")))
    as [[Hs Hconv] | [Hs Hconv]]; [left | right];
    (split; [by eauto|]); revert Hconv; unfold or_else;
    by destruct (truthy (get props "hash")).
Qed.

Lemma conversation_Done (ctx : gmap string value) prompt w result w' :
  conversation create ctx prompt w = (Done result, w') →
  transactionContext result = ctx ∧
  errorCategory result = get ctx "errorCategory" ∧
  conversationTurns result = 3.
Proof.
  unfold conversation.
  destruct (create _ w) as [[d|msg] w1]; [|done].
  destruct (create _ w1) as [[f|msg] w2]; [|done].
  destruct (create _ w2) as [[r|msg] w3]; [|done].
  by intros [= <- <-].
Qed.

(** A diagnosis that succeeds returns the classification of its input. *)
Lemma diagnoseTxFailure_Done (txData : gmap string value) w result w' :
  diagnoseTxFailure create clock stringify txData w = (Done result, w') →
  ∃ c, detectErrorCategory txData = Normal c ∧ errorCategory result = VObj c ∧
       buildTransactionContext (clock w) txData
       = Normal (transactionContext result).
Proof.
  destruct (diagnoseTxFailure_cases create clock stringify txData w)
    as [[_ ->] | [_ (c & prompt & Hc & _ & ->)]]; [done|].
  intros (Hctx & Hcat & _)%conversation_Done. exists c.
  rewrite Hcat, context_errorCategory, Hctx. split_and!; [done..|].
  by apply buildTransactionContext_Normal.
Qed.

Lemma diagnose_Done (tx : value) w result w' :
  diagnose create clock stringify tx w = (Done result, w') →
  ∃ txData c, as_record tx = Normal txData ∧
              detectErrorCategory txData = Normal c ∧
              errorCategory result = VObj c.
Proof.
  unfold diagnose, mbind, io_bind, lift.
  destruct (as_record tx) as [txData|e]; [|done]. cbn [caught].
  intros (c & Hc & Hcat & _)%diagnoseTxFailure_Done. by exists txData, c.
Qed.

Lemma diagnose_category (tx : value) w result w' :
  diagnose create clock stringify tx w = (Done result, w') →
  ∃ cat, category_of result = Some cat ∧ cat ∈ category_labels.
Proof.
  intros (txData & c & _ & Hc & Hcat)%diagnose_Done.
  destruct (detectErrorCategory_label _ _ Hc) as (cat & Hget & Hin).
  exists cat. unfold category_of. by rewrite Hcat, Hget.
Qed.

(** The loop, by cases. *)
Lemma process_cases (transactions : list value) :
  ∀ results w,
    forallb loggable transactions = true
      ∧ (∃ entries w',
           process create clock stringify transactions results w
           = (Done (results ++ entries), w') ∧
           Forall2 (entry_of create clock stringify) transactions entries)
    ∨ forallb loggable transactions = false
      ∧ (∃ msg w',
           process create clock stringify transactions results w
           = (Failed msg, w')).
Proof.
  induction transactions as [|tx rest IH]; intros results w.
  { left. split; [done|]. exists [], w. rewrite (right_id_L [] (++)).
    split; [done | constructor]. }
  cbn [process forallb].
  unfold mbind at 1 3, io_bind at 1 3, lift at 1 2.
  destruct (processing_line_cases tx) as [[[line ->] ->] | [[e ->] ->]];
    cbn [caught andb].
  2: { right. split; [done|]. by exists (message_of e), w. }
  unfold mbind at 1 2, io_bind at 1 2, try_catch at 1 2.
  destruct (diagnose create clock stringify tx w) as [r w1] eqn:Hr.
  destruct (IH (results ++ [match r with
                            | Done result => succeeded result
                            | Failed msg => failed_with msg tx
                            end]) w1)
    as [[-> (entries & w' & -> & Hall)] | [-> (msg & w' & ->)]].
  - left. split; [done|]. eexists (_ :: entries), w'.
    rewrite <- (assoc_L (++)). split; [done|]. constructor; [|done].
    exists w, w1. by destruct r.
  - right. split; [done|]. by exists msg, w'.
Qed.

Lemma count_category_Some (summary : gmap string nat) result cat :
  category_of result = Some cat →
  count_category summary result
  = Normal (<[cat := default 0 (summary !! cat) + 1]> summary).
Proof.
  unfold category_of, count_category.
  destruct (errorCategory result) as [ | | | | | |c]; try done.
  cbn [member mbind completion_bind].
  destruct (get c "category"); try done. by intros [= ->].
Qed.

(** The tally: every label is counted as often as it occurs. *)
Lemma count_categories_tally (results : list diagnosis_result) :
  Forall (λ r, ∃ cat, category_of r = Some cat ∧ cat ∈ category_labels) results →
  ∀ summary, ∃ summary',
    count_categories summary results = Normal summary' ∧
    (∀ cat, default 0 (summary' !! cat)
            = default 0 (summary !! cat)
              + length (filter (λ r, category_of r = Some cat) results)) ∧
    (∀ cat, is_Some (summary' !! cat) →
            is_Some (summary !! cat) ∨ cat ∈ category_labels).
Proof.
  induction 1 as [|r results (cat0 & Hr & Hin) _ IH]; intros summary.
  { exists summary. split_and!; [done| |by left]. intros cat. simpl. lia. }
  cbn [count_categories]. rewrite (count_category_Some _ _ _ Hr).
  cbn [mbind completion_bind].
  destruct (IH (<[cat0 := default 0 (summary !! cat0) + 1]> summary))
    as (summary' & -> & Hcount & Hkeys).
  exists summary'. split_and!; [done|..].
  - intros cat. rewrite Hcount, filter_cons.
    destruct (decide (cat = cat0)) as [->|Hne].
    + rewrite lookup_insert_eq, decide_True by done. simpl. lia.
    + rewrite lookup_insert_ne by done.
      rewrite decide_False; [done|]. rewrite Hr. by intros [= ->].
  - intros cat [Hcat|Hcat]%Hkeys; [|by right].
    destruct (decide (cat = cat0)) as [->|Hne]; [by right|].
    left. by rewrite lookup_insert_ne in Hcat.
Qed.

Lemma successes_app (l1 l2 : list batch_entry) :
  successes (l1 ++ l2) = successes l1 ++ successes l2.
Proof. apply omap_app. Qed.

Lemma successes_failures_length (results : list batch_entry) :
  length (successes results) + length (failures results) = length results.
Proof.
  unfold successes, failures.
  induction results as [|[r|msg tx] results IH]; [done|..].
  - rewrite filter_cons_False by done. simpl. f_equal. exact IH.
  - rewrite filter_cons_True by done. simpl. rewrite <- IH. apply Nat.add_succ_r.
Qed.

Lemma entries_categories (transactions : list value) entries :
  Forall2 (entry_of create clock stringify) transactions entries →
  Forall (λ r, ∃ cat, category_of r = Some cat ∧ cat ∈ category_labels)
         (successes entries).
Proof.
  induction 1 as [|tx [r|msg tx'] transactions entries (w0 & w1 & Hentry) _ IH];
    [constructor| |done].
  constructor; [|done]. by eapply diagnose_category.
Qed.

Lemma sum_list_indicator (labels : list string) (cat0 : string) :
  NoDup labels → cat0 ∈ labels →
  sum_list ((λ cat, if decide (cat = cat0) then 1 else 0) <$> labels) = 1.
Proof.
  induction 1 as [|cat labels Hnotin _ IH]; [by intros ?%elem_of_nil|].
  rewrite fmap_cons. cbn [sum_list]. intros [<-|Hin]%elem_of_cons.
  - rewrite decide_True by done.
    assert (sum_list ((λ cat, if decide (cat = cat0) then 1 else 0) <$> labels)
            = 0) as ->; [|done].
    clear IH. induction labels as [|cat labels IH]; [done|].
    apply not_elem_of_cons in Hnotin as [Hne Hnotin].
    rewrite fmap_cons. cbn [sum_list].
    rewrite decide_False by done. by rewrite IH.
  - rewrite decide_False by (by intros ->). by rewrite IH.
Qed.

Lemma sum_list_plus {A} (f g : A → nat) (l : list A) :
  sum_list ((λ x, f x + g x) <$> l) = sum_list (f <$> l) + sum_list (g <$> l).
Proof.
  induction l as [|x l IH]; [done|]. rewrite !fmap_cons. cbn [sum_list].
  rewrite IH. unfold id. lia.
Qed.

(** Each result counts towards exactly one label. *)
Lemma tally_sum (labels : list string) (results : list diagnosis_result) :
  NoDup labels →
  Forall (λ r, ∃ cat, category_of r = Some cat ∧ cat ∈ labels) results →
  sum_list ((λ cat, length (filter (λ r, category_of r = Some cat) results))
              <$> labels)
  = length results.
Proof.
  intros Hnodup. induction 1 as [|r results (cat0 & Hr & Hin) _ IH].
  { induction labels as [|cat labels IHl]; [done|].
    rewrite fmap_cons. cbn [sum_list]. rewrite IHl; [done|].
    by apply NoDup_cons in Hnodup as [_ ?]. }
  transitivity
    (sum_list ((λ cat, if decide (cat = cat0) then 1 else 0) <$> labels)
     + sum_list ((λ cat, length (filter (λ r, category_of r = Some cat) results))
                   <$> labels));
    [|by rewrite sum_list_indicator, IH].
  rewrite <- sum_list_plus. f_equal. apply list_fmap_ext. intros _ cat _.
  rewrite filter_cons. destruct (decide (cat = cat0)) as [->|Hne].
  - by rewrite decide_True.
  - rewrite decide_False; [done|]. rewrite Hr. by intros [= ->].
Qed.

Lemma category_labels_NoDup : NoDup category_labels.
Proof. apply (bool_decide_unpack _). by vm_compute. Qed.

(** [batchAnalyze], by cases. *)
Lemma batchAnalyze_cases (transactions : list value) w :
  forallb loggable transactions = true
    ∧ (∃ results summary w',
         batchAnalyze create clock stringify transactions w
         = (Done (results,
                  {| total := length transactions;
                     analyzed := length (successes results);
                     failed := length (failures results);
                     categorySummary := summary |}), w') ∧
         Forall2 (entry_of create clock stringify) transactions results ∧
         count_categories ∅ (successes results) = Normal summary)
  ∨ forallb loggable transactions = false
    ∧ (∃ msg w',
         batchAnalyze create clock stringify transactions w = (Failed msg, w')).
Proof.
  unfold batchAnalyze. unfold mbind at 1 3, io_bind at 1 3.
  destruct (process_cases transactions [] w)
    as [[-> (results & w' & -> & Hall)] | [-> (msg & w' & ->)]].
  2: { right. split; [done|]. by exists msg, w'. }
  left. split; [done|]. rewrite app_nil_l.
  destruct (count_categories_tally (successes results)
              (entries_categories _ _ Hall) ∅) as (summary & Hcount & _).
  exists results, summary, w'.
  unfold mbind at 1, io_bind at 1, lift at 1. by rewrite Hcount.
Qed.

(** X14.  The summary of a batch adds up.  When [batchAnalyze] returns,
    there is one result per transaction, analyzed and failed add up to
    total, the category table holds for every label the number of
    successful results classified with it, its keys are among the eleven
    labels of the classifier, and its counts add up to analyzed. *)
Theorem batchAnalyze_summary (transactions : list value) w results summary w' :
  batchAnalyze create clock stringify transactions w
  = (Done (results, summary), w') →
  length results = length transactions ∧
  total summary = length transactions ∧
  analyzed summary + failed summary = total summary ∧
  (∀ cat, default 0 (categorySummary summary !! cat)
          = length (filter (λ r, category_of r = Some cat) (successes results))) ∧
  (∀ cat, is_Some (categorySummary summary !! cat) → cat ∈ category_labels) ∧
  sum_list ((λ cat, default 0 (categorySummary summary !! cat))
              <$> category_labels)
  = analyzed summary.
Proof.
  destruct (batchAnalyze_cases transactions w)
    as [[_ (results' & table & w'' & -> & Hall & Hcount)] | [_ (msg & w'' & ->)]];
    [|done].
  intros [= <- <- <-]. cbn [total analyzed failed categorySummary].
  pose proof (entries_categories _ _ Hall) as Hcats.
  destruct (count_categories_tally _ Hcats ∅) as (table' & Hcount' & Htally & Hkeys).
  rewrite Hcount in Hcount'. apply Normal_inj in Hcount' as <-.
  pose proof (Forall2_length _ _ _ Hall) as Hlen.
  split_and!.
  - done.
  - done.
  - rewrite successes_failures_length. done.
  - intros cat. by rewrite Htally, lookup_empty.
  - intros cat [Hcat|Hcat]%Hkeys; [|done].
    rewrite lookup_empty in Hcat. by destruct Hcat.
  - rewrite <- (tally_sum category_labels (successes results')
                  category_labels_NoDup Hcats).
    f_equal. apply list_fmap_ext. intros _ cat _.
    by rewrite Htally, lookup_empty.
Qed.

(** X15.  When a batch returns at all.  [batchAnalyze] returns exactly
    when the log line of every element can be written, that is when no
    element is null or undefined and no hash is a truthy value without a
    string conversion.  The line is written before the [try], so one such
    element makes the whole batch fail, and the results of the elements
    before it are lost.  No failure of the service and no failure of the
    classifier makes a batch fail. *)
Theorem batchAnalyze_returns (transactions : list value) w :
  (∃ results summary w',
     batchAnalyze create clock stringify transactions w
     = (Done (results, summary), w'))
  ↔ forallb loggable transactions = true.
Proof.
  destruct (batchAnalyze_cases transactions w)
    as [[-> (results & table & w' & -> & _)] | [-> (msg & w' & ->)]].
  - split; [done|]. intros _. by repeat eexists.
  - split; [|done]. by intros (? & ? & ? & ?).
Qed.

(** X16.  Results keep the order of the transactions.  When
    [batchAnalyze] returns, the result at each position belongs to the
    transaction at that position: a failure entry holds that very
    transaction and the message its diagnosis failed with, a success
    entry holds the result of its diagnosis, whose errorCategory is the
    classification of that transaction. *)
Theorem batchAnalyze_results (transactions : list value) w results summary w' :
  batchAnalyze create clock stringify transactions w
  = (Done (results, summary), w') →
  Forall2
    (λ tx entry,
       entry_of create clock stringify tx entry ∧
       match entry with
       | succeeded result =>
           VObj <$> (as_record tx ≫= detectErrorCategory)
           = Normal (errorCategory result)
       | failed_with msg tx' => tx' = tx
       end)
    transactions results.
Proof.
  destruct (batchAnalyze_cases transactions w)
    as [[_ (results' & table & w'' & -> & Hall & _)] | [_ (msg & w'' & ->)]];
    [|done].
  intros [= <- <- <-].
  eapply Forall2_impl; [exact Hall|]. intros tx entry Hentry. split; [done|].
  destruct Hentry as (w0 & w1 & Hentry). destruct entry as [result|msg tx'].
  - apply diagnose_Done in Hentry as (txData & c & -> & Hc & ->).
    cbn [mbind completion_bind]. by rewrite Hc.
  - by destruct Hentry.
Qed.

End batch.

Section batch_transcript.
Context {numbers : Number} {texts : CaseMapping} {World : Type}.
Variable create : request → World → outcome string * World.
Variable clock : World → string.
Variable stringify : value → World → string.

(** One diagnosis sends at most three requests, and three when it
    succeeds. *)
Lemma diagnose_requests (tx : value) w log out w' log' :
  diagnose (recorded create) (λ s, clock s.1) (λ v s, stringify v s.1) tx (w, log)
  = (out, (w', log')) →
  ∃ sent, log' = log ++ sent ∧ length sent ≤ 3 ∧
          (∀ result, out = Done result → length sent = 3).
Proof.
  unfold diagnose, mbind, io_bind, lift.
  destruct (as_record tx) as [txData|e]; cbn [caught].
  2: { intros [= <- <- <-]. exists []. rewrite (right_id_L [] (++)).
       split_and!; [done|simpl; lia|done]. }
  intros [(_ & -> & _ & ->) | [_ (c & prompt & _ & _ & Hconv)]]%diagnoseTxFailure_recorded.
  { exists []. rewrite (right_id_L [] (++)). split_and!; [done|simpl; lia|done]. }
  apply conversation_transcript in Hconv
    as [(msg & -> & ->) | [(d & msg & -> & ->) | [(d & f & msg & -> & ->)
       | (d & f & r & -> & ->)]]];
    (eexists; split; [reflexivity|]; split; [simpl; lia|done]).
Qed.

Lemma process_requests (transactions : list value) :
  ∀ results w log out w' log',
    process (recorded create) (λ s, clock s.1) (λ v s, stringify v s.1) transactions results
            (w, log) = (out, (w', log')) →
    ∃ sent,
      log' = log ++ sent ∧ length sent ≤ 3 * length transactions ∧
      (∀ results', out = Done results' →
         3 * length (successes results')
         ≤ 3 * length (successes results) + length sent).
Proof.
  induction transactions as [|tx rest IH]; intros results w log out w' log'.
  { intros [= <- <- <-]. exists []. rewrite (right_id_L [] (++)).
    split_and!; [done|simpl; lia|]. intros ? [= <-]. simpl. lia. }
  cbn [process]. unfold mbind at 1, io_bind at 1, lift at 1.
  destruct (processing_line tx) as [line|e]; cbn [caught].
  2: { intros [= <- <- <-]. exists []. rewrite (right_id_L [] (++)).
       split_and!; [done|simpl; lia|done]. }
  unfold mbind at 1, io_bind at 1, try_catch at 1.
  destruct (diagnose (recorded create) (λ s, clock s.1) (λ v s, stringify v s.1) tx (w, log))
    as [r [w1 log1]] eqn:Hr.
  apply diagnose_requests in Hr as (sent1 & -> & Hlen1 & Hdone1).
  intros (sent2 & -> & Hlen2 & Hdone2)%IH.
  exists (sent1 ++ sent2). rewrite (assoc_L (++)), length_app. cbn [length].
  split_and!; [done|lia|]. intros results' ->.
  specialize (Hdone2 _ eq_refl). rewrite successes_app, length_app in Hdone2.
  destruct r as [result|msg]; cbn [successes omap list_omap length] in Hdone2.
  - rewrite (Hdone1 _ eq_refl). lia.
  - lia.
Qed.

(** A batch against the recording service, with what it leaves behind. *)
Lemma batchAnalyze_transcript (transactions : list value) w log out w' log' :
  batchAnalyze (recorded create) (λ s, clock s.1) (λ v s, stringify v s.1) transactions (w, log)
  = (out, (w', log')) →
  ∃ sent,
    log' = log ++ sent ∧ length sent ≤ 3 * length transactions ∧
    match out with
    | Done (results, summary) =>
        forallb loggable transactions = true ∧
        length results = length transactions ∧
        total summary = length transactions ∧
        3 * analyzed summary ≤ length sent
    | Failed msg => forallb loggable transactions = false
    end.
Proof.
  intros Hrun.
  assert (match out with
          | Done (results, summary) =>
              forallb loggable transactions = true ∧
              length results = length transactions ∧
              total summary = length transactions
          | Failed msg => forallb loggable transactions = false
          end) as Hout.
  { destruct (batchAnalyze_cases (recorded create) (λ s, clock s.1) (λ v s, stringify v s.1)
                transactions (w, log))
      as [[Hlog (results & table & s' & Heq & Hall & _)] | [Hlog (msg & s' & Heq)]];
      rewrite Heq in Hrun; injection Hrun as <- _; [|done].
    split_and!; [done| |done]. symmetry. by eapply Forall2_length. }
  revert Hrun. unfold batchAnalyze. rewrite io_bind_unfold.
  destruct (process _ _ _ transactions [] (w, log)) as [r [w1 log1]] eqn:Hr.
  apply process_requests in Hr as (sent & -> & Hlen & Hdone).
  destruct r as [results|msg].
  2: { intros [= <- <- <-]. by exists sent. }
  specialize (Hdone _ eq_refl). cbn [successes omap list_omap length] in Hdone.
  rewrite io_bind_unfold. unfold lift at 1.
  destruct (count_categories ∅ (successes results)) as [table|e]; cbn [caught].
  - intros [= <- <- <-]. exists sent. destruct Hout as (? & ? & ?).
    split_and!; [done..|]. cbn [analyzed]. lia.
  - intros [= <- <- <-]. by exists sent.
Qed.

(** X17.  The cost of a batch.  A batch of n transactions sends at most
    3n requests to the service, whatever the answers; when it returns, at
    least three requests were sent for every analysed transaction. *)
Theorem batchAnalyze_requests (transactions : list value) w log out w' log' :
  batchAnalyze (recorded create) (λ s, clock s.1) (λ v s, stringify v s.1) transactions (w, log)
  = (out, (w', log')) →
  ∃ sent,
    log' = log ++ sent ∧ length sent ≤ 3 * length transactions ∧
    (∀ results summary, out = Done (results, summary) →
       3 * analyzed summary ≤ length sent).
Proof.
  intros (sent & -> & Hlen & Hout)%batchAnalyze_transcript.
  exists sent. split_and!; [done..|]. intros results summary ->.
  by destruct Hout as (_ & _ & _ & ?).
Qed.

End batch_transcript.

(** * Properties of the HTTP handlers *)

Section server_properties.
Context {numbers : Number} {texts : CaseMapping} {World : Type}.
Variable create : request → World → outcome string * World.
Variable clock : World → string.
Variable stringify : value → World → string.

(** A diagnosis against the recording service, with everything it
    leaves behind. *)
Lemma diagnoseTxFailure_transcript (txData : gmap string value) w log out w' log' :
  diagnoseTxFailure (recorded create) (λ s, clock s.1) (λ v s, stringify v s.1) txData (w, log)
  = (out, (w', log')) →
  ∃ sent,
    log' = log ++ sent ∧
    match out with
    | Done result =>
        sent.*2 = [Done (diagnosis result); Done (codeFix result);
                   Done (riskAssessment result)] ∧
        VObj <$> detectErrorCategory txData = Normal (errorCategory result)
    | Failed msg =>
        sent = [] ∧ w' = w ∧ msg = "Cannot convert object to primitive value"
        ∨ length sent ≤ 3 ∧ ∃ req, last sent = Some (req, Failed msg)
    end.
Proof.
  intros [(_ & -> & -> & ->) | [_ (c & prompt & Hc & _ & Hconv)]]%diagnoseTxFailure_recorded.
  { exists []. rewrite (right_id_L [] (++)). split; [done|]. by left. }
  apply conversation_transcript in Hconv
    as [(msg & -> & ->) | [(d & msg & -> & ->) | [(d & f & msg & -> & ->)
       | (d & f & r & -> & ->)]]];
    (eexists; split; [reflexivity|]).
  - right. split; [simpl; lia|]. by eexists.
  - right. split; [simpl; lia|]. by eexists.
  - right. split; [simpl; lia|]. by eexists.
  - cbn [diagnosis codeFix riskAssessment errorCategory]. split; [reflexivity|].
    by rewrite Hc, context_errorCategory.
Qed.

(** X18.  The contract of POST /diagnose.  The handler always answers and
    lets no exception escape.  It answers 400 exactly when the body is
    neither an object nor an array, and then contacts nobody.  It answers
    200 only after three answered requests, with the three answers in
    order, the hash of the body as it came and the classification of the
    body.  Every other outcome is a 500 that carries the message of the
    failure: the conversion error when nothing was sent, or the message
    of the one request that failed, which is the last one. *)
Theorem post_diagnose_contract (body : value) w log out w' log' :
  post_diagnose (recorded create) (λ s, clock s.1) (λ v s, stringify v s.1) body (w, log)
  = (out, (w', log')) →
  ∃ sent reply,
    out = Done reply ∧ log' = log ++ sent ∧
    match reply with
    | rejected _ =>
        (∀ props, body ≠ VObj props) ∧ (∀ elems, body ≠ VArr elems) ∧
        sent = [] ∧ w' = w
    | diagnosed hash category d f r analysisTimestamp =>
        ((∃ props, body = VObj props) ∨ (∃ elems, body = VArr elems)) ∧
        member body "hash" = Normal hash ∧
        VObj <$> (as_record body ≫= detectErrorCategory) = Normal category ∧
        sent.*2 = [Done d; Done f; Done r] ∧
        analysisTimestamp = clock w'
    | errored msg =>
        ((∃ props, body = VObj props) ∨ (∃ elems, body = VArr elems)) ∧
        (sent = [] ∧ w' = w ∧ msg = "Cannot convert object to primitive value"
         ∨ length sent ≤ 3 ∧ ∃ req, last sent = Some (req, Failed msg))
    | _ => False
    end.
Proof.
  unfold post_diagnose.
  assert (∀ (txData : gmap string value) (hash : value),
            as_record body = Normal txData →
            (r ← try_catch
                   (hash ← lift (Normal hash);
                    _ ← lift (to_string (or_else hash (VStr "unknown")));
                    result ← diagnose (recorded create) (λ s, clock s.1)
                               (λ v s, stringify v s.1) body;
                    analysisTimestamp ← toISOString (λ s, clock s.1);
                    mret (diagnosed hash (errorCategory result)
                            (diagnosis result) (codeFix result)
                            (riskAssessment result) analysisTimestamp));
             match r with
             | Done sent => mret sent
             | Failed msg => mret (errored msg)
             end) (w, log) = (out, (w', log')) →
            ∃ sent reply,
              out = Done reply ∧ log' = log ++ sent ∧
              match reply with
              | diagnosed hash' category d f r analysisTimestamp =>
                  hash' = hash ∧
                  VObj <$> detectErrorCategory txData = Normal category ∧
                  sent.*2 = [Done d; Done f; Done r] ∧
                  analysisTimestamp = clock w'
              | errored msg =>
                  sent = [] ∧ w' = w ∧
                  msg = "Cannot convert object to primitive value"
                  ∨ length sent ≤ 3 ∧ ∃ req, last sent = Some (req, Failed msg)
              | _ => False
              end) as Hrun.
  { intros txData hash Hrecord.
    rewrite io_bind_unfold. unfold try_catch at 1. rewrite io_bind_unfold.
    unfold lift at 1. cbn [caught]. rewrite io_bind_unfold. unfold lift at 1.
    destruct (to_string_cases (or_else hash (VStr "unknown")))
      as [[[line ->] _] | [-> _]]; cbn [caught].
    2: { intros [= <- <- <-].
         exists [], (errored "Cannot convert object to primitive value").
         rewrite (right_id_L [] (++)). split_and!; [done..|]. by left. }
    rewrite io_bind_unfold. unfold diagnose at 1. rewrite io_bind_unfold.
    unfold lift at 1. rewrite Hrecord. cbn [caught].
    destruct (diagnoseTxFailure _ _ _ txData (w, log)) as [r [w1 log1]] eqn:Hr.
    apply diagnoseTxFailure_transcript in Hr as (sent & -> & Hr).
    destruct r as [result|msg].
    - destruct Hr as [Hanswers Hcat]. cbn.
      intros [= <- <- <-]. exists sent. eexists. split_and!; [reflexivity..|].
      by split_and!.
    - intros [= <- <- <-]. by exists sent, (errored msg). }
  destruct body as [ | |b|n|s|elems|props];
    cbn [truthy is_object negb orb]; rewrite ?orb_true_r.
  1,2,3,4,5: intros [= <- <- <-]; exists []; eexists;
         rewrite (right_id_L [] (++)); split_and!; done.
  - cbn [member]. intros Heq.
    destruct (Hrun ∅ VUndefined eq_refl Heq) as (sent & reply & -> & -> & Hreply).
    exists sent, reply. split_and!; [done..|].
    destruct reply as [? ?|hash category d f r ts|? ?|msg|msg];
      [destruct Hreply| |destruct Hreply|destruct Hreply|].
    + destruct Hreply as (-> & ? & ? & ?).
      split_and!; [right; by eexists | done..].
    + split; [|exact Hreply]. right. by eexists.
  - cbn [member]. intros Heq.
    destruct (Hrun props (get props "hash") eq_refl Heq)
      as (sent & reply & -> & -> & Hreply).
    exists sent, reply. split_and!; [done..|].
    destruct reply as [? ?|hash category d f r ts|? ?|msg|msg];
      [destruct Hreply| |destruct Hreply|destruct Hreply|].
    + destruct Hreply as (-> & ? & ? & ?).
      split_and!; [left; by eexists | done..].
    + split; [|exact Hreply]. left. by eexists.
Qed.

(** X19.  The contract of POST /batch.  The handler lets an exception
    escape only when there is no body to destructure.  It answers 400,
    without contacting anybody, exactly when the transactions of the body
    are not an array of one to ten elements.  Otherwise it answers 200
    when the log line of every element can be written and 500 when it
    cannot.  One call never sends more than thirty requests, and a 200
    reports one result per transaction. *)
Theorem post_batch_contract (body : value) w log out w' log' :
  post_batch (recorded create) (λ s, clock s.1) (λ v s, stringify v s.1) body (w, log)
  = (out, (w', log')) →
  ∃ sent,
    log' = log ++ sent ∧ length sent ≤ 30 ∧
    match out with
    | Failed _ => (body = VUndefined ∨ body = VNull) ∧ sent = []
    | Done (rejected _) =>
        sent = [] ∧ w' = w ∧
        ∀ transactions,
          destructure body "transactions" = Normal (VArr transactions) →
          length transactions = 0 ∨ 10 < length transactions
    | Done (batched summary results) =>
        ∃ transactions,
          destructure body "transactions" = Normal (VArr transactions) ∧
          1 ≤ length transactions ≤ 10 ∧
          forallb loggable transactions = true ∧
          length results = length transactions ∧
          total summary = length transactions ∧
          3 * analyzed summary ≤ length sent
    | Done (errored _) =>
        ∃ transactions,
          destructure body "transactions" = Normal (VArr transactions) ∧
          1 ≤ length transactions ≤ 10 ∧
          forallb loggable transactions = false
    | Done _ => False
    end.
Proof.
  unfold post_batch. rewrite io_bind_unfold. unfold lift at 1.
  destruct (destructure body "transactions") as [transactions|e] eqn:Hbody;
    cbn [caught].
  2: { intros [= <- <- <-]. exists []. rewrite (right_id_L [] (++)).
       split_and!; [done|simpl; lia| |done].
       destruct body; try done; [by left | by right]. }
  assert (∀ msg, (mret (rejected msg) : io response) (w, log) = (out, (w', log')) →
            (∀ txs, transactions = VArr txs → length txs = 0 ∨ 10 < length txs) →
            ∃ sent,
              log' = log ++ sent ∧ length sent ≤ 30 ∧
              match out with
              | Done (rejected _) =>
                  sent = [] ∧ w' = w ∧
                  ∀ txs, Normal transactions = Normal (VArr txs) →
                         length txs = 0 ∨ 10 < length txs
              | _ => False
              end) as Hrejected.
  { intros msg [= <- <- <-] Hlen. exists []. rewrite (right_id_L [] (++)).
    split_and!; [done|simpl; lia|done..|]. intros txs Heq%Normal_inj. by apply Hlen. }
  destruct transactions as [ | |b|n|s|transactions|props];
    try (intros Hrun; destruct (Hrejected _ Hrun) as (sent & ? & ? & Hout);
         [done|]; exists sent; split_and!; [done..|];
         by destruct out as [[]|]).
  destruct (Nat.eqb_spec (length transactions) 0) as [Hzero|Hzero].
  { intros Hrun. destruct (Hrejected _ Hrun) as (sent & ? & ? & Hout).
    - intros txs [= <-]. by left.
    - exists sent. split_and!; [done..|]. by destruct out as [[]|]. }
  destruct (Nat.ltb_spec 10 (length transactions)) as [Hmany|Hmany].
  { intros Hrun. destruct (Hrejected _ Hrun) as (sent & ? & ? & Hout).
    - intros txs [= <-]. by right.
    - exists sent. split_and!; [done..|]. by destruct out as [[]|]. }
  rewrite io_bind_unfold. unfold try_catch at 1.
  destruct (batchAnalyze _ _ _ transactions (w, log)) as [r [w1 log1]] eqn:Hr.
  apply batchAnalyze_transcript in Hr as (sent & -> & Hsent & Hr).
  destruct r as [[results summary]|msg]; intros [= <- <- <-];
    exists sent; (split_and!; [done|lia|]); exists transactions.
  - destruct Hr as (? & Hresults & ? & ?).
    rewrite length_fmap. split_and!; (done || lia).
  - split_and!; (done || lia).
Qed.

(** X20.  The contract of POST /classify.  The handler answers 200 with
    the classification of the body and the body itself, or 400 with the
    message of the exception; it answers 400 exactly when there is no
    body, or when the body is an object one of whose properties error,
    revertReason and errorMessage holds a truthy value without a string
    conversion. *)
Theorem post_classify_contract (body : value) :
  match post_classify body with
  | classified category txData =>
      txData = body ∧
      as_record body ≫= detectErrorCategory = Normal category ∧
      body ≠ VUndefined ∧ body ≠ VNull ∧
      ∀ props k, body = VObj props → k ∈ text_fields →
                 truthy (get props k) = true → convertible (get props k) = true
  | rejected msg =>
      body = VUndefined ∧
        msg = "Cannot read properties of undefined (reading 'error')"
      ∨ body = VNull ∧
        msg = "Cannot read properties of null (reading 'error')"
      ∨ msg = "Cannot convert object to primitive value" ∧
        ∃ props k, body = VObj props ∧ k ∈ text_fields ∧
                   truthy (get props k) = true ∧
                   convertible (get props k) = false
  | _ => False
  end.
Proof.
  unfold post_classify.
  assert (detectErrorCategory (∅ : gmap string value) = Normal UNKNOWN)
    as Hempty by apply detectErrorCategory_empty.
  destruct body as [ | |b|n|s|elems|props]; cbn [as_record mbind completion_bind];
    rewrite ?Hempty; try (split_and!; done); try (by left); try (right; by left).
  destruct (detectErrorCategory_cases props)
    as [[[c ->] Htext] | [-> (k & Hk & Hv & Hconv)]].
  - split_and!; [done..|]. intros props' k [= <-]. by apply Htext.
  - right. right. split; [done|]. by exists props, k.
Qed.

End server_properties.

(** * Concrete runs

    The runs are over records with integer numbers and ASCII texts, on
    which every case mapping is the ASCII one. *)

#[local] Existing Instance integer_numbers.
#[local] Existing Instance ascii_case_mapping.

Lemma detectErrorCategory_first_match_witness :
  some_catalog_substring (toLowerCase ("OUT OF GAS" +:+ " " +:+ "" +:+ " " +:+ "")) ∧
  ∃ entry, ERROR_PATTERNS !! 0%nat = Some ("OUT_OF_GAS", entry) ∧
    detectErrorCategory gas_record = Normal (category_object "OUT_OF_GAS" entry).
Proof.
  assert (some_catalog_substring
            (toLowerCase ("OUT OF GAS" +:+ " " +:+ "" +:+ " " +:+ ""))) as Hsome.
  { exists "OUT_OF_GAS",
      {| patterns := ["out of gas"; "gas required exceeds allowance";
                      "intrinsic gas too low"];
         category := "Gas Error" |}, "out of gas".
    split_and!; [repeat constructor..|]. by exists "", "  ". }
  split; [exact Hsome|].
  destruct (detectErrorCategory_first_match gas_record "OUT OF GAS" "" ""
              eq_refl eq_refl eq_refl Hsome)
    as (_ & pre & key & entry & post & Hsplit & _ & Hpre & Hrun).
  destruct pre as [|[k0 e0] pre].
  - injection Hsplit as <- <- _. eexists. split; [reflexivity | exact Hrun].
  - exfalso. injection Hsplit as <- <- _.
    eapply (Hpre "OUT_OF_GAS" _ "out of gas").
    + constructor.
    + repeat constructor.
    + by exists "", "  ".
Defined.

Lemma detectErrorCategory_unknown_witness :
  field_text collateral_record "revertReason"
    = Normal "VL_COLLATERAL_CANNOT_COVER_NEW_BORROW" ∧
  no_catalog_substring
    (toLowerCase ("" +:+ " " +:+ "VL_COLLATERAL_CANNOT_COVER_NEW_BORROW"
                  +:+ " " +:+ "")) ∧
  detectErrorCategory collateral_record = Normal UNKNOWN.
Proof.
  assert (no_catalog_substring
            (toLowerCase ("" +:+ " " +:+ "VL_COLLATERAL_CANNOT_COVER_NEW_BORROW"
                          +:+ " " +:+ ""))) as Hno
    by (apply no_catalog_substring_Forall; repeat constructor).
  split_and!; [reflexivity | exact Hno |].
  exact (proj1 (detectErrorCategory_unknown collateral_record
                  "" "VL_COLLATERAL_CANNOT_COVER_NEW_BORROW" ""
                  eq_refl eq_refl eq_refl Hno)).
Defined.

(** The concatenation without separators finds "allowance" in the record
    with error [allow] and revert reason [ance], and ALLOWANCE is the
    first entry with a substring in it; [detectErrorCategory] searches
    "allow ance " and answers UNKNOWN. *)
Lemma detectErrorCategory_concatenation_counterexample :
  spec_search_string split_word_record = "allowance" ∧
  (∃ pre entry post,
     ERROR_PATTERNS = pre ++ ("ALLOWANCE", entry) :: post ∧
     "allowance" ∈ patterns entry ∧
     occurs_in (toLowerCase "allowance") (spec_search_string split_word_record) ∧
     ∀ key' entry' p, (key', entry') ∈ pre → p ∈ patterns entry' →
       ¬ occurs_in (toLowerCase p) (spec_search_string split_word_record)) ∧
  search_string split_word_record = Normal "allow ance " ∧
  detectErrorCategory split_word_record = Normal UNKNOWN ∧
  ∀ entry, detectErrorCategory split_word_record
           ≠ Normal (category_object "ALLOWANCE" entry).
Proof.
  assert (detectErrorCategory split_word_record = Normal UNKNOWN) as Hrun
    by reflexivity.
  split_and!.
  - reflexivity.
  - exists (take 3 ERROR_PATTERNS),
      {| patterns := ["allowance"; "transfer amount exceeds allowance";
                      "erc20: insufficient allowance"];
         category := "Allowance Error" |},
      (drop 4 ERROR_PATTERNS).
    split_and!.
    + reflexivity.
    + constructor.
    + by exists "", "".
    + intros key' entry' p Hin.
      assert (Forall (λ ke, entry_matches "allowance" ke.2 = false)
                (take 3 ERROR_PATTERNS)) as Hpre by repeat constructor.
      rewrite Forall_forall in Hpre.
      apply (entry_matches_false_iff "allowance" entry'), (Hpre _ Hin).
  - reflexivity.
  - exact Hrun.
  - intros entry. rewrite Hrun. intros Heq%Normal_inj.
    by eapply category_object_not_UNKNOWN; [|symmetry; exact Heq].
Qed.

Lemma buildTransactionContext_populated_witness :
  returns (detectErrorCategory router_record) ∧
  ∃ ctx, buildTransactionContext sample_now router_record = Normal ctx ∧
    ∀ f, f ∈ canonical_fields → ∃ v, ctx !! f = Some v ∧ v ≠ VUndefined.
Proof.
  assert (detectErrorCategory router_record
          = Normal (category_object "ALLOWANCE"
              {| patterns := ["allowance";
                              "transfer amount exceeds allowance";
                              "erc20: insufficient allowance"];
                 category := "Allowance Error" |})) as Hrun
    by reflexivity.
  assert (returns (detectErrorCategory router_record)) as Hret
    by (rewrite Hrun; apply returns_Normal).
  split; [exact Hret|].
  exact (proj1 (buildTransactionContext_populated sample_now router_record Hret)).
Defined.

(** A record whose error is an object with an own [toString] property:
    building its context raises a TypeError. *)
Lemma buildTransactionContext_raises_counterexample :
  get shadowed_record "error" = VObj {[ "toString" := VNull ]} ∧
  buildTransactionContext sample_now shadowed_record
    = Throw (TypeError "Cannot convert object to primitive value") ∧
  ¬ returns (buildTransactionContext sample_now shadowed_record).
Proof.
  assert (buildTransactionContext sample_now shadowed_record
          = Throw (TypeError "Cannot convert object to primitive value")) as Hrun
    by reflexivity.
  split_and!; [reflexivity | exact Hrun |].
  rewrite Hrun. apply not_returns_Throw.
Qed.

Lemma detectErrorCategory_field_coercion_witness :
  "error" ∈ text_fields ∧
  (truthy (get false_error_record "error") = false ∧
   field_text false_error_record "error" = Normal "" ∧
   detectErrorCategory (delete "error" false_error_record)
   = detectErrorCategory false_error_record ∧
   returns (detectErrorCategory false_error_record)) ∧
  (truthy (get array_record "error") = true ∧
   to_string (get array_record "error") = Normal "out of gas" ∧
   search_string array_record
   = search_string (<[ "error" := VStr "out of gas" ]> array_record) ∧
   detectErrorCategory array_record
   = detectErrorCategory (<[ "error" := VStr "out of gas" ]> array_record) ∧
   ∃ c, detectErrorCategory (<[ "error" := VStr "out of gas" ]> array_record)
        = Normal c ∧
        c !! "key" = Some (VStr "OUT_OF_GAS")).
Proof.
  assert ("error" ∈ text_fields) as Hin by constructor.
  assert (truthy (get false_error_record "error") = false) as Hfalsy
    by reflexivity.
  assert (truthy (get array_record "error") = true) as Htruthy by reflexivity.
  assert (to_string (get array_record "error") = Normal "out of gas") as Htext
    by reflexivity.
  destruct (detectErrorCategory_field_coercion false_error_record "error" Hin)
    as (Hret & _ & Habsent & _).
  destruct (Habsent Hfalsy) as (Hempty & _ & Hsame).
  destruct (detectErrorCategory_field_coercion array_record "error" Hin)
    as (_ & _ & _ & Hkept).
  destruct (Hkept Htruthy) as [_ Hkept'].
  destruct (Hkept' "out of gas" Htext) as [Hsearch Hresult].
  split_and!.
  - exact Hin.
  - exact Hfalsy.
  - exact Hempty.
  - exact Hsame.
  - apply Hret. intros k' Hk' Hv.
    repeat (apply elem_of_cons in Hk' as [->|Hk']); [reflexivity..|].
    by apply elem_of_nil in Hk'.
  - exact Htruthy.
  - exact Htext.
  - exact Hsearch.
  - exact Hresult.
  - eexists. split; reflexivity.
Defined.

(** An array in the error field is not treated as absent: its string
    conversion is searched, and the record is classified OUT_OF_GAS where
    the record without the field is UNKNOWN.  An object with an own
    [toString] property makes [detectErrorCategory] raise. *)
Lemma detectErrorCategory_non_string_counterexample :
  (get array_record "error" = VArr [VStr "out of gas"] ∧
   search_string array_record = Normal "out of gas  " ∧
   search_string (delete "error" array_record) = Normal "  " ∧
   (∃ entry, detectErrorCategory array_record
             = Normal (category_object "OUT_OF_GAS" entry)) ∧
   detectErrorCategory (delete "error" array_record) = Normal UNKNOWN ∧
   detectErrorCategory array_record
   ≠ detectErrorCategory (delete "error" array_record)) ∧
  (get shadowed_record "error" = VObj {[ "toString" := VNull ]} ∧
   detectErrorCategory shadowed_record
   = Throw (TypeError "Cannot convert object to primitive value") ∧
   ¬ returns (detectErrorCategory shadowed_record)).
Proof.
  assert (detectErrorCategory array_record
          = Normal (category_object "OUT_OF_GAS"
                      {| patterns := ["out of gas";
                                      "gas required exceeds allowance";
                                      "intrinsic gas too low"];
                         category := "Gas Error" |})) as Harr
    by reflexivity.
  assert (detectErrorCategory (delete "error" array_record) = Normal UNKNOWN)
    as Hdel by reflexivity.
  assert (detectErrorCategory shadowed_record
          = Throw (TypeError "Cannot convert object to primitive value"))
    as Hobj by reflexivity.
  split; split_and!.
  - reflexivity.
  - reflexivity.
  - reflexivity.
  - eexists. exact Harr.
  - exact Hdel.
  - rewrite Harr, Hdel. intros Heq%Normal_inj.
    by eapply category_object_not_UNKNOWN; [|exact Heq].
  - reflexivity.
  - exact Hobj.
  - rewrite Hobj. apply not_returns_Throw.
Qed.

Lemma buildTransactionContext_twice_witness :
  ∃ ctx1 ctx2 ctx3,
    buildTransactionContext sample_now gas_record = Normal ctx1 ∧
    buildTransactionContext sample_now ctx1 = Normal ctx2 ∧
    buildTransactionContext sample_now gas_record = Normal ctx3 ∧
    ctx2 !! "gasLimit" = ctx3 !! "gasLimit" ∧
    ctx2 !! "errorCategory" = ctx3 !! "errorCategory".
Proof.
  assert (detectErrorCategory gas_record
          = Normal (category_object "OUT_OF_GAS"
                      {| patterns := ["out of gas";
                                      "gas required exceeds allowance";
                                      "intrinsic gas too low"];
                         category := "Gas Error" |})) as Hrun
    by reflexivity.
  pose proof (buildTransactionContext_Normal sample_now _ _ Hrun) as Hctx1.
  destruct (buildTransactionContext_twice sample_now sample_now sample_now
              gas_record _ Hctx1)
    as (ctx2 & ctx3 & H2 & H3 & Hfields & _ & _ & Hcat & _).
  eexists _, ctx2, ctx3. split_and!.
  - exact Hctx1.
  - exact H2.
  - exact H3.
  - by apply Hfields.
  - by apply Hcat.
Defined.

(** The record with only an errorMessage: its context is classified
    OUT_OF_GAS, but the context record has no errorMessage field, so the
    context of the context is classified UNKNOWN. *)
Lemma buildTransactionContext_twice_counterexample :
  ∃ ctx1 ctx2,
    buildTransactionContext sample_now message_only_record = Normal ctx1 ∧
    buildTransactionContext sample_now ctx1 = Normal ctx2 ∧
    (∃ entry, ctx1 !! "errorCategory"
              = Some (VObj (category_object "OUT_OF_GAS" entry))) ∧
    ctx1 !! "errorMessage" = None ∧
    ctx2 !! "errorCategory" = Some (VObj UNKNOWN) ∧
    ctx2 !! "errorCategory" ≠ ctx1 !! "errorCategory".
Proof.
  assert (detectErrorCategory message_only_record
          = Normal (category_object "OUT_OF_GAS"
                      {| patterns := ["out of gas";
                                      "gas required exceeds allowance";
                                      "intrinsic gas too low"];
                         category := "Gas Error" |})) as Hrun
    by reflexivity.
  pose proof (buildTransactionContext_Normal sample_now _ _ Hrun) as Hctx1.
  set (ctx1 := list_to_map (context_properties sample_now message_only_record _))
    in Hctx1.
  assert (detectErrorCategory ctx1 = Normal UNKNOWN) as Hrun2
    by reflexivity.
  pose proof (buildTransactionContext_Normal sample_now _ _ Hrun2) as Hctx2.
  eexists ctx1, _. split_and!.
  - exact Hctx1.
  - exact Hctx2.
  - eexists. unfold ctx1. rewrite list_to_map_assoc. reflexivity.
  - unfold ctx1. rewrite list_to_map_assoc. reflexivity.
  - rewrite list_to_map_assoc. reflexivity.
  - unfold ctx1. rewrite !list_to_map_assoc.
    cbn [assoc String.eqb Ascii.eqb Bool.eqb context_properties].
    intros Heq%Some_VObj_inj.
    by eapply category_object_not_UNKNOWN; [|symmetry; exact Heq].
Qed.

Lemma detectErrorCategory_reads_text_fields_witness :
  get gas_record "gasLimit" ≠ get (delete "gasLimit" gas_record) "gasLimit" ∧
  detectErrorCategory gas_record
  = detectErrorCategory (delete "gasLimit" gas_record).
Proof.
  split; [by vm_compute|].
  apply detectErrorCategory_reads_text_fields; reflexivity.
Defined.

Lemma buildTransactionContext_contractAddress_witness :
  returns (detectErrorCategory router_record) ∧
  ∃ ctx, buildTransactionContext sample_now router_record = Normal ctx ∧
         ctx !! "contractAddress" = Some (VStr "0xRouter").
Proof.
  assert (returns (detectErrorCategory router_record)) as Hret
    by (eexists; reflexivity).
  split; [exact Hret|].
  destruct (buildTransactionContext_contractAddress sample_now router_record Hret)
    as [(ctx & Hctx & Hca) _].
  exists ctx. split; [exact Hctx|]. rewrite Hca. reflexivity.
Defined.

Lemma buildTransactionContext_defaults_witness :
  returns (detectErrorCategory router_record) ∧
  ∃ ctx, buildTransactionContext sample_now router_record = Normal ctx ∧
         ctx !! "status" = Some (VStr "failed") ∧
         ctx !! "value" = Some (VStr "0") ∧
         ctx !! "network" = Some (VStr "Ethereum Mainnet").
Proof.
  assert (returns (detectErrorCategory router_record)) as Hret
    by (eexists; reflexivity).
  split; [exact Hret|].
  destruct (buildTransactionContext_defaults sample_now router_record Hret)
    as (ctx & Hctx & Hstatus & Hvalue & Hnetwork).
  exists ctx.
  split_and!; [exact Hctx | apply Hstatus | apply Hvalue | apply Hnetwork];
    reflexivity.
Defined.

(** ** Runs of the further properties *)

Lemma detectErrorCategory_case_insensitive_witness :
  field_text gas_record "error" = Normal "OUT OF GAS" ∧
  field_text plain_gas_record "error" = Normal "out of gas" ∧
  toLowerCase "OUT OF GAS" = toLowerCase "out of gas" ∧
  detectErrorCategory gas_record = detectErrorCategory plain_gas_record.
Proof.
  split_and!; [reflexivity..|].
  exact (detectErrorCategory_case_insensitive gas_record plain_gas_record
           "OUT OF GAS" "" "" "out of gas" "" ""
           eq_refl eq_refl eq_refl eq_refl eq_refl eq_refl
           eq_refl eq_refl eq_refl).
Defined.

Lemma detectErrorCategory_result_shape_witness :
  ∃ c, detectErrorCategory router_record = Normal c ∧
       c !! "key" = Some (VStr "ALLOWANCE") ∧
       ∃ cat pats, c !! "category" = Some (VStr cat) ∧
                   c !! "patterns" = Some (VArr (VStr <$> pats)) ∧
                   c !! "txData" = None.
Proof.
  eexists. split; [reflexivity|]. split; [reflexivity|].
  destruct (detectErrorCategory_result_shape router_record _ eq_refl)
    as (key & cat & pats & _ & Hcat & Hpats & Hrest & _).
  exists cat, pats. split_and!; [exact Hcat | exact Hpats |].
  apply Hrest; intros [=].
Defined.

Lemma detectErrorCategory_priority_witness :
  field_text example_record "error" = Normal "execution reverted" ∧
  field_text example_record "revertReason"
  = Normal "ERC20: insufficient allowance" ∧
  (∃ entry, ERROR_PATTERNS !! 3 = Some ("ALLOWANCE", entry) ∧
            "allowance" ∈ patterns entry) ∧
  occurs_in "allowance" (toLowerCase "ERC20: insufficient allowance") ∧
  ∃ j key' entry',
    j ≤ 3 ∧ ERROR_PATTERNS !! j = Some (key', entry') ∧
    detectErrorCategory example_record = Normal (category_object key' entry').
Proof.
  assert (occurs_in "allowance" (toLowerCase "ERC20: insufficient allowance"))
    as Hocc by (by exists "erc20: insufficient ", "").
  split_and!; [reflexivity | reflexivity | | exact Hocc | ].
  - eexists. split; [reflexivity | repeat constructor].
  - destruct (detectErrorCategory_priority example_record
                "execution reverted" "ERC20: insufficient allowance" ""
                3 "ALLOWANCE" _ "allowance" eq_refl eq_refl eq_refl eq_refl
                ltac:(repeat constructor) (or_intror (or_introl Hocc)))
      as (j & key' & entry' & Hj & Hlookup & Hrun & _).
    by exists j, key', entry'.
Defined.

Lemma detectErrorCategory_revert_shadows_witness :
  field_text example_record "error" = Normal "execution reverted" ∧
  occurs_in "execution reverted" (toLowerCase "execution reverted") ∧
  ∃ c, detectErrorCategory example_record = Normal c ∧
       c !! "category" = Some (VStr "Execution Revert").
Proof.
  assert (occurs_in "execution reverted" (toLowerCase "execution reverted"))
    as Hocc by (by exists "", "").
  split_and!; [reflexivity | exact Hocc |].
  destruct (detectErrorCategory_revert_shadows example_record
              "execution reverted" "ERC20: insufficient allowance" ""
              eq_refl eq_refl eq_refl (or_introl Hocc))
    as (c & Hc & Hcases).
  exists c. split; [exact Hc|]. revert Hc. intros <-%Normal_inj. reflexivity.
Defined.

Lemma catalog_entries_reachable_witness :
  ∃ entry, ("NONCE", entry) ∈ ERROR_PATTERNS ∧
    ∃ txData : gmap string value,
      detectErrorCategory txData = Normal (category_object "NONCE" entry).
Proof.
  eexists {| patterns := ["nonce too low"; "nonce too high";
                          "replacement transaction underpriced"];
             category := "Nonce Error" |}.
  assert (("NONCE", {| patterns := ["nonce too low"; "nonce too high";
                                    "replacement transaction underpriced"];
                       category := "Nonce Error" |}) ∈ ERROR_PATTERNS) as Hin
    by repeat constructor.
  split; [exact Hin|].
  exact (proj1 (catalog_entries_reachable _ _ Hin)).
Defined.

Lemma detectErrorCategory_no_text_witness :
  truthy (get falsy_text_record "error") = false ∧
  truthy (get falsy_text_record "revertReason") = false ∧
  truthy (get falsy_text_record "errorMessage") = false ∧
  detectErrorCategory falsy_text_record = Normal UNKNOWN.
Proof.
  split_and!; [reflexivity..|].
  exact (detectErrorCategory_no_text falsy_text_record
           eq_refl eq_refl eq_refl).
Defined.

Lemma buildTransactionContext_keeps_supplied_witness :
  returns (detectErrorCategory example_record) ∧
  "gasUsed" ∈ canonical_fields ∧
  truthy (get example_record "gasUsed") = true ∧
  ∃ ctx, buildTransactionContext sample_now example_record = Normal ctx ∧
         ctx !! "gasUsed" = Some (VStr "45000").
Proof.
  assert (returns (detectErrorCategory example_record)) as Hret
    by (eexists; reflexivity).
  assert ("gasUsed" ∈ canonical_fields) as Hin by repeat constructor.
  split_and!; [exact Hret | exact Hin | reflexivity |].
  exact (buildTransactionContext_keeps_supplied sample_now example_record
           "gasUsed" Hret Hin ltac:(intros [=]) eq_refl).
Defined.

Lemma buildTransactionContext_truthy_witness :
  sample_now ≠ "" ∧
  returns (detectErrorCategory (∅ : gmap string value)) ∧
  ∃ ctx v, buildTransactionContext sample_now ∅ = Normal ctx ∧
           ctx !! "timestamp" = Some v ∧ truthy v = true.
Proof.
  assert (sample_now ≠ "") as Hnow by (intros [=]).
  assert (returns (detectErrorCategory (∅ : gmap string value))) as Hret
    by (eexists; reflexivity).
  split_and!; [exact Hnow | exact Hret |].
  exact (buildTransactionContext_truthy sample_now ∅ "timestamp" Hnow Hret
           ltac:(repeat constructor)).
Defined.

Lemma buildTransactionContext_only_canonical_witness :
  ∃ ctx, buildTransactionContext sample_now message_only_record = Normal ctx ∧
         ctx !! "errorMessage" = None ∧
         (is_Some (ctx !! "nonce") ↔ "nonce" ∈ canonical_fields).
Proof.
  eexists. split; [reflexivity|].
  destruct (buildTransactionContext_only_canonical sample_now
              message_only_record _ "nonce" eq_refl) as [Hiff Hnone].
  split; [exact Hnone | exact Hiff].
Defined.

Lemma diagnoseTxFailure_first_request_witness :
  ∃ out w' log',
    diagnoseTxFailure (recorded scripted) (λ s, sample_clock s.1)
      (λ v s, sample_stringify v s.1) shadowed_hash_record (three_answers, [])
    = (out, (w', log')) ∧
    out = Failed "Cannot convert object to primitive value" ∧
    w' = three_answers ∧ log' = [].
Proof.
  destruct (diagnoseTxFailure (recorded scripted) (λ s, sample_clock s.1)
              (λ v s, sample_stringify v s.1) shadowed_hash_record (three_answers, []))
    as [out [w' log']] eqn:Hrun.
  exists out, w', log'. split; [reflexivity|].
  destruct (diagnoseTxFailure_first_request scripted sample_clock
              sample_stringify shadowed_hash_record three_answers []
              out w' log' Hrun)
    as [(_ & Hout & Hw & Hlog) | [Hgood _]].
  - split_and!; [exact Hout | exact Hw | exact Hlog].
  - exfalso.
    assert (convertible (get shadowed_hash_record "hash") = true) as Hconv.
    { apply Hgood; [repeat constructor | reflexivity]. }
    discriminate Hconv.
Defined.

Lemma diagnoseTxFailure_protocol_witness :
  ∃ out w' log',
    diagnoseTxFailure (recorded scripted) (λ s, sample_clock s.1)
      (λ v s, sample_stringify v s.1) example_record (three_answers, [])
    = (out, (w', log')) ∧
    ∃ sent, log' = [] ++ sent ∧ length sent ≤ 3 ∧
      ∀ i req answer, sent !! i = Some (req, answer) →
        model req = "claude-opus-4-6" ∧ length (messages req) = 2 * i + 1.
Proof.
  destruct (diagnoseTxFailure (recorded scripted) (λ s, sample_clock s.1)
              (λ v s, sample_stringify v s.1) example_record (three_answers, []))
    as [out [w' log']] eqn:Hrun.
  exists out, w', log'. split; [reflexivity|].
  destruct (diagnoseTxFailure_protocol scripted sample_clock
              sample_stringify example_record three_answers []
              out w' log' Hrun)
    as (sent & Hlog & Hlen & Hshape & _).
  exists sent. split_and!; [exact Hlog | exact Hlen |].
  intros i req answer Hi.
  destruct (Hshape i req answer Hi) as (Hmodel & _ & _ & Hmessages & _).
  split; [exact Hmodel | exact Hmessages].
Defined.

Lemma diagnoseTxFailure_outcome_witness :
  (diagnoseTxFailure (recorded scripted) (λ s, sample_clock s.1)
     (λ v s, sample_stringify v s.1) example_record ([Done "diagnosis"], [])).1
  = Failed "Connection error." ∧
  ∃ out w' log',
    diagnoseTxFailure (recorded scripted) (λ s, sample_clock s.1)
      (λ v s, sample_stringify v s.1) example_record ([Done "diagnosis"], [])
    = (out, (w', log')) ∧
    ∃ sent, log' = [] ++ sent ∧
      ∀ i req answer, sent !! i = Some (req, answer) → S i < length sent →
                      ∃ a, answer = Done a.
Proof.
  split; [reflexivity|].
  destruct (diagnoseTxFailure (recorded scripted) (λ s, sample_clock s.1)
              (λ v s, sample_stringify v s.1) example_record ([Done "diagnosis"], []))
    as [out [w' log']] eqn:Hrun.
  exists out, w', log'. split; [reflexivity|].
  destruct (diagnoseTxFailure_outcome scripted sample_clock
              sample_stringify example_record [Done "diagnosis"] []
              out w' log' Hrun)
    as (sent & Hlog & Hanswered & _).
  exists sent. split; [exact Hlog | exact Hanswered].
Defined.

Lemma diagnoseTxFailure_reads_witness :
  (∀ k, k ∈ converted_fields →
        get example_record k = get example_record_with_nonce k) ∧
  sample_stringify
    (or_else (get example_record "additionalContext") (VObj ∅)) three_answers
  = sample_stringify
      (or_else (get example_record_with_nonce "additionalContext") (VObj ∅))
      three_answers ∧
  ∃ out1 out2 s1 s2,
    diagnoseTxFailure (recorded scripted) (λ s, sample_clock s.1)
      (λ v s, sample_stringify v s.1) example_record (three_answers, [])
    = (out1, s1) ∧
    diagnoseTxFailure (recorded scripted) (λ s, sample_clock s.1)
      (λ v s, sample_stringify v s.1) example_record_with_nonce
      (three_answers, [])
    = (out2, s2) ∧
    s1 = s2.
Proof.
  assert (∀ k, k ∈ converted_fields →
               get example_record k = get example_record_with_nonce k) as Heq.
  { intros k Hk.
    repeat (apply elem_of_cons in Hk as [->|Hk]); [reflexivity..|].
    by apply elem_of_nil in Hk. }
  split; [exact Heq|]. split; [reflexivity|].
  destruct (diagnoseTxFailure (recorded scripted) (λ s, sample_clock s.1)
              (λ v s, sample_stringify v s.1) example_record
              (three_answers, []))
    as [out1 s1] eqn:Hrun1.
  destruct (diagnoseTxFailure (recorded scripted) (λ s, sample_clock s.1)
              (λ v s, sample_stringify v s.1) example_record_with_nonce
              (three_answers, []))
    as [out2 s2] eqn:Hrun2.
  exists out1, out2, s1, s2. split; [reflexivity|]. split; [reflexivity|].
  exact (proj1 (diagnoseTxFailure_reads scripted sample_clock
                  sample_stringify sample_stringify
                  example_record example_record_with_nonce three_answers []
                  out1 out2 s1 s2 Heq eq_refl Hrun1 Hrun2)).
Defined.

Lemma batchAnalyze_summary_witness :
  ∃ results summary w',
    batchAnalyze scripted sample_clock sample_stringify
      [VObj example_record; VObj shadowed_record; VObj gas_record]
      (three_answers ++ three_answers)
    = (Done (results, summary), w') ∧
    length results = 3 ∧ total summary = 3 ∧
    analyzed summary + failed summary = total summary ∧
    categorySummary summary !! "Execution Revert" = Some 1 ∧
    categorySummary summary !! "Gas Error" = Some 1.
Proof.
  assert (match (batchAnalyze scripted sample_clock sample_stringify
                   [VObj example_record; VObj shadowed_record; VObj gas_record]
                   (three_answers ++ three_answers)).1 with
          | Done (_, summary) =>
              categorySummary summary !! "Execution Revert" = Some 1 ∧
              categorySummary summary !! "Gas Error" = Some 1
          | Failed _ => False
          end) as Hdone by (split; reflexivity).
  destruct (batchAnalyze scripted sample_clock sample_stringify
              [VObj example_record; VObj shadowed_record; VObj gas_record]
              (three_answers ++ three_answers))
    as [[[results summary]|msg] w'] eqn:Hrun; [|destruct Hdone].
  destruct Hdone as [Hrevert Hgas].
  exists results, summary, w'. split; [reflexivity|].
  destruct (batchAnalyze_summary scripted sample_clock sample_stringify
              [VObj example_record; VObj shadowed_record; VObj gas_record]
              (three_answers ++ three_answers) results summary w' Hrun)
    as (Hlen & Htotal & Hsum & _).
  split_and!; [exact Hlen | exact Htotal | exact Hsum | exact Hrevert
              | exact Hgas].
Defined.

Lemma batchAnalyze_results_witness :
  ∃ results summary w',
    batchAnalyze scripted sample_clock sample_stringify
      [VObj shadowed_record; VObj gas_record] three_answers
    = (Done (results, summary), w') ∧
    Forall2 (λ tx entry,
               match entry with
               | succeeded result =>
                   VObj <$> (as_record tx ≫= detectErrorCategory)
                   = Normal (errorCategory result)
               | failed_with msg tx' => tx' = tx
               end)
            [VObj shadowed_record; VObj gas_record] results.
Proof.
  assert (match (batchAnalyze scripted sample_clock sample_stringify
                   [VObj shadowed_record; VObj gas_record] three_answers).1 with
          | Done _ => True
          | Failed _ => False
          end) as Hdone by exact I.
  destruct (batchAnalyze scripted sample_clock sample_stringify
              [VObj shadowed_record; VObj gas_record] three_answers)
    as [[[results summary]|msg] w'] eqn:Hrun; [|destruct Hdone].
  exists results, summary, w'. split; [reflexivity|].
  eapply Forall2_impl;
    [exact (batchAnalyze_results scripted sample_clock sample_stringify
              [VObj shadowed_record; VObj gas_record] three_answers
              results summary w' Hrun)|].
  intros tx entry [_ Hentry]. exact Hentry.
Defined.

Lemma batchAnalyze_requests_witness :
  ∃ out w' log',
    batchAnalyze (recorded scripted) (λ s, sample_clock s.1) (λ v s, sample_stringify v s.1)
      [VObj shadowed_record; VObj gas_record] (three_answers, [])
    = (out, (w', log')) ∧
    ∃ sent, log' = [] ++ sent ∧ length sent ≤ 3 * 2.
Proof.
  destruct (batchAnalyze (recorded scripted) (λ s, sample_clock s.1)
              (λ v s, sample_stringify v s.1) [VObj shadowed_record; VObj gas_record]
              (three_answers, []))
    as [out [w' log']] eqn:Hrun.
  exists out, w', log'. split; [reflexivity|].
  destruct (batchAnalyze_requests scripted sample_clock sample_stringify
              [VObj shadowed_record; VObj gas_record] three_answers []
              out w' log' Hrun)
    as (sent & Hlog & Hlen & _).
  exists sent. split; [exact Hlog | exact Hlen].
Defined.

Lemma post_diagnose_contract_witness :
  (post_diagnose (recorded scripted) (λ s, sample_clock s.1) (λ v s, sample_stringify v s.1)
     (VStr "0xabc") (three_answers, [])).1
  = Done (rejected "Request body must be a transaction data object") ∧
  ∃ out w' log',
    post_diagnose (recorded scripted) (λ s, sample_clock s.1) (λ v s, sample_stringify v s.1)
      (VStr "0xabc") (three_answers, [])
    = (out, (w', log')) ∧
    ∃ sent reply, out = Done reply ∧ log' = [] ++ sent.
Proof.
  split; [reflexivity|].
  destruct (post_diagnose (recorded scripted) (λ s, sample_clock s.1)
              (λ v s, sample_stringify v s.1) (VStr "0xabc") (three_answers, []))
    as [out [w' log']] eqn:Hrun.
  exists out, w', log'. split; [reflexivity|].
  destruct (post_diagnose_contract scripted sample_clock sample_stringify
              (VStr "0xabc") three_answers [] out w' log' Hrun)
    as (sent & reply & Hout & Hlog & _).
  exists sent, reply. split; [exact Hout | exact Hlog].
Defined.

Lemma post_batch_contract_witness :
  ∃ out w' log',
    post_batch (recorded scripted) (λ s, sample_clock s.1) (λ v s, sample_stringify v s.1)
      (VObj {[ "transactions" := VArr [VObj gas_record] ]}) (three_answers, [])
    = (out, (w', log')) ∧
    ∃ sent, log' = [] ++ sent ∧ length sent ≤ 30.
Proof.
  destruct (post_batch (recorded scripted) (λ s, sample_clock s.1)
              (λ v s, sample_stringify v s.1)
              (VObj {[ "transactions" := VArr [VObj gas_record] ]})
              (three_answers, []))
    as [out [w' log']] eqn:Hrun.
  exists out, w', log'. split; [reflexivity|].
  destruct (post_batch_contract scripted sample_clock sample_stringify
              (VObj {[ "transactions" := VArr [VObj gas_record] ]})
              three_answers [] out w' log' Hrun)
    as (sent & Hlog & Hlen & _).
  exists sent. split; [exact Hlog | exact Hlen].
Defined.
